(** * DataMapPlot: the two plot-creation entry points

    A shallow embedding of [datamapplot/create_plots.py]: [create_plot]
    (static plots) and [create_interactive_plot] (HTML plots).

    Conventions of the embedding.
    - Python floats are idealised as real numbers ([R]); rounding, infinities
      and NaN are not modelled.
    - Labels and colours are strings; a dict keyed by labels is a [gmap].
    - A Python exception is a value of [exn] that records its class and the
      place that raised it; a computation that may raise has type [result].
    - The modules imported by the source but kept outside it (palette
      handling, medoids, the two renderers) and the third-party libraries
      (textwrap, matplotlib's [to_rgb]) are the fields of the classes of the
      section "Collaborators". *)

From Stdlib Require Import Reals Lra Lia ZArith String Ascii.
From Stdlib Require Import OrderedTypeEx.
From stdpp Require Import gmap strings list fin_maps sorting.

#[local] Set Warnings "-clear-no-such-hyp".

Local Open Scope string_scope.

(** ** Exceptions and fallible computations *)

(** Who raised an exception.  [EntryPointCheck] stands for a [raise]
    statement or assertion written in [create_plots.py] itself. *)
Inductive raiser : Type :=
  | Dict                 (* a dict subscript: d[k] *)
  | Sequence             (* a list or array subscript by position *)
  | Numpy                (* boolean-mask indexing, array construction *)
  | Pandas               (* column assignment, Series arithmetic *)
  | CallSite             (* the interpreter binding keyword arguments *)
  | Operator             (* an operator applied to built-in values *)
  | Helper (name : string) (* raised inside a called helper or library *)
  | EntryPointCheck.

Inductive exn_class : Type :=
  | KeyError | IndexError | ValueError | TypeError | HelperFailure.

Record exn : Type := Exn { exn_cls : exn_class; exn_by : raiser }.

Inductive result (A : Type) : Type :=
  | Raise (e : exn)
  | Return (a : A).
Arguments Raise {A} e.
Arguments Return {A} a.

Definition result_bind {A B} (f : A -> result B) (m : result A) : result B :=
  match m with
  | Raise e => Raise e
  | Return a => f a
  end.

#[global] Instance result_mret : MRet result := fun A a => Return a.
#[global] Instance result_mbind : MBind result := fun A B f m => result_bind f m.

(** [[f x for x in l]] where [f] may raise: the first failure wins. *)
Fixpoint traverse {A B} (f : A -> result B) (l : list A) : result (list B) :=
  match l with
  | [] => Return []
  | x :: l' =>
      match f x with
      | Raise e => Raise e
      | Return y =>
          match traverse f l' with
          | Raise e => Raise e
          | Return ys => Return (y :: ys)
          end
      end
  end.

(** What a call to a collaborator gives back: a value or a failure of its
    own, reported with a message. *)
Inductive outcome (A : Type) : Type :=
  | Failed (msg : string)
  | Gave (a : A).
Arguments Failed {A} msg.
Arguments Gave {A} a.

Definition call_helper {A} (name : string) (o : outcome A) : result A :=
  match o with
  | Failed _ => Raise (Exn HelperFailure (Helper name))
  | Gave a => Return a
  end.

(** [d[k]] on a dict. *)
Definition dict_get {V} (d : gmap string V) (k : string) : result V :=
  match d !! k with
  | Some v => Return v
  | None => Raise (Exn KeyError Dict)
  end.

(** [l[i]] on a list or one-dimensional array, for [0 <= i]. *)
Definition seq_get {V} (l : list V) (i : nat) : result V :=
  match l !! i with
  | Some v => Return v
  | None => Raise (Exn IndexError Sequence)
  end.

(** An exception is library-level when it does not come from a check
    written in the entry points themselves. *)
Definition library_level (e : exn) : bool :=
  match exn_by e with
  | EntryPointCheck => false
  | _ => true
  end.

(** ** Python values for keyword arguments *)

Inductive pyval : Type :=
  | PyNone
  | PyBool (b : bool)
  | PyInt (z : Z)
  | PyFloat (r : R)
  | PyStr (s : string).

(** The number a value stands for in float arithmetic, if any. *)
Definition as_number (v : pyval) : option R :=
  match v with
  | PyInt z => Some (IZR z)
  | PyFloat r => Some r
  | PyBool b => Some (if b then 1%R else 0%R)
  | PyNone | PyStr _ => None
  end.

(** ** numpy on label vectors and coordinate arrays *)

(** A row of [data_map_coords]. *)
Definition point : Type := R * R.
(** A colour as matplotlib takes it (a hex string or a colour name). *)
Definition color : Type := string.

(** Insert into a strictly increasing list of strings. *)
Fixpoint insert_sorted (x : string) (l : list string) : list string :=
  match l with
  | [] => [x]
  | y :: l' =>
      match String.compare x y with
      | Lt => x :: l
      | Eq => l
      | Gt => y :: insert_sorted x l'
      end
  end.

(** [np.unique(v)]: the distinct elements of [v], sorted. *)
Definition np_unique (v : list string) : list string :=
  foldr insert_sorted [] v.

(** [rows[mask]] once the lengths are known to agree. *)
Fixpoint take_masked {A} (rows : list A) (mask : list bool) : list A :=
  match rows, mask with
  | r :: rows', b :: mask' =>
      if b then r :: take_masked rows' mask' else take_masked rows' mask'
  | _, _ => []
  end.

(** [v == i] for a label vector [v]. *)
Definition mask_eq (v : list string) (i : string) : list bool :=
  map (fun x => bool_decide (x = i)) v.

(** [rows[mask]]: numpy refuses a boolean mask whose length differs from the
    number of rows. *)
Definition bool_index {A} (rows : list A) (mask : list bool) : result (list A) :=
  if decide (length mask = length rows)
  then Return (take_masked rows mask)
  else Raise (Exn IndexError Numpy).

Definition Rsum (l : list R) : R := foldr Rplus 0%R l.

(** [rows.mean(axis=0)] on an (n, 2) array. *)
Definition mean_axis0 (rows : list point) : point :=
  ((Rsum (map fst rows) / INR (length rows))%R,
   (Rsum (map snd rows) / INR (length rows))%R).

(** [np.clip(x, lo, hi)]. *)
Definition np_clip (x lo hi : R) : R := Rmin (Rmax x lo) hi.

(** [np.log10]. *)
Definition np_log10 (x : R) : R := (ln x / ln 10)%R.

(** [int(x)] on a float: truncation towards zero. *)
Definition py_int (x : R) : Z :=
  if Rle_dec 0 x then Int_part x else (- Int_part (- x))%Z.

(** [{k: v for k, v in kvs}]: a later pair overwrites an earlier one with the
    same key. *)
Definition dict_of_pairs {V} (kvs : list (string * V)) : gmap string V :=
  foldl (fun d kv => <[kv.1 := kv.2]> d) ∅ kvs.

(** [pd.Series(v).value_counts()], as pairs of a value and its count. *)
Definition value_counts (v : list string) : list (string * nat) :=
  map (fun u => (u, length (filter (fun x => x = u) v))) (np_unique v).

(** Minimum and maximum of a Series of floats (of an empty one: unused). *)
Definition Rlist_min (l : list R) : R :=
  match l with
  | [] => 0%R
  | x :: l' => foldr Rmin x l'
  end.

Definition Rlist_max (l : list R) : R :=
  match l with
  | [] => 0%R
  | x :: l' => foldr Rmax x l'
  end.

(** ** The calls handed to the renderers *)

(** A matplotlib colour map object, known by its name. *)
Inductive colormap : Type := Colormap (name : string).

Module RenderPlot.
(** The arguments of one call [render_plot(...)] as [create_plot] writes
    it: four positional arguments, the explicit keywords, and the
    remaining keywords. *)
Record call : Type := {
  data_map_coords : list point;
  color_list : list color;
  label_text : list string;
  label_locations : list point;
  title : option string;
  sub_title : option string;
  point_size : pyval;
  alpha : pyval;
  label_text_colors : option (list color);
  label_arrow_colors : option (list color);
  highlight_colors : list color;
  figsize : R * R;
  noise_color : color;
  label_size_adjustments : list R;
  dpi : R;
  force_matplotlib : bool;
  darkmode : bool;
  highlight_labels : option (list string);
  kwds : gmap string pyval
}.

(** The keywords the call writes out that are not parameters of
    [create_plot] and are not popped from [render_plot_kwds]: finding one
    of them in the forwarded keywords too makes the call a TypeError. *)
Definition explicit_keywords : list string :=
  ["label_text_colors"; "label_arrow_colors"; "highlight_colors";
   "label_size_adjustments"].
End RenderPlot.

(** An RGB triple of integers, each the result of [int(c * 255)]. *)
Definition rgb : Type := Z * Z * Z.

(** A boundary polygon of a cluster. *)
Definition polygon : Type := list point.

Module LabelFrame.
(** A row of the dataframe [label_text_and_polygon_dataframes] returns:
    one cluster of one label layer. *)
Record row : Type := {
  label : string;
  x : R;
  y : R;
  boundary : option polygon
}.

(** The same row once the colour columns are assigned and the label is
    wrapped. *)
Record colored_row : Type := {
  base : row;
  r : Z; g : Z; b : Z; a : Z
}.
End LabelFrame.

Module PointFrame.
(** [point_dataframe], column by column. *)
Record t : Type := {
  x : list R;
  y : list R;
  hover_text : option (list string);
  size : option (list R);
  r : list Z; g : list Z; b : list Z; a : list Z
}.
End PointFrame.

Module RenderHtml.
(** The arguments of the call [render_html(...)]. *)
Record call : Type := {
  point_dataframe : PointFrame.t;
  label_dataframe : list LabelFrame.colored_row;
  inline_data : bool;
  color_label_text : bool;
  darkmode : bool;
  kwds : gmap string pyval
}.
End RenderHtml.

Module InteractiveFigure.
(** Modelled from the spec: the class [InteractiveFigure] of
    [datamapplot.interactive_rendering], which is not among the sources; the
    spec calls it "an HTML string wrapped for embedding".  It keeps the HTML
    string and the iframe width and height it was built with. *)
Record t : Type := {
  html_str : string;
  width : pyval;
  height : pyval
}.
End InteractiveFigure.

(** ** Collaborators *)

(** Modelled from the spec: the module [datamapplot.palette_handling], which
    is not among the sources.  The spec gives its contracts: "palette
    generation is a pure function of point positions and anchor positions",
    "color derivation (deep/pastel variants) is a pure function of a base
    color list", and "palette functions return one color per unique
    non-noise label", that is one colour per anchor or per base colour
    handed in. *)
Class PaletteHandling : Type := {
  palette_from_datamap :
    list point -> list point -> R -> R -> list color;
  palette_from_cmap_and_datamap :
    colormap -> list point -> list point -> R -> list color;
  deep_palette : list color -> list color;
  pastel_palette : list color -> list color;
  palette_from_datamap_length : forall coords locs hue_shift rwp,
    length (palette_from_datamap coords locs hue_shift rwp) = length locs;
  palette_from_cmap_and_datamap_length : forall cm coords locs rwp,
    length (palette_from_cmap_and_datamap cm coords locs rwp) = length locs;
  deep_palette_length : forall cs, length (deep_palette cs) = length cs;
  pastel_palette_length : forall cs, length (pastel_palette cs) = length cs
}.

(** Modelled from the spec: [datamapplot.medoids.medoid] is not among the
    sources, and the spec keeps "the medoid-finding routine" as an opaque
    call: a function of the rows it is given, with no law. *)
Class Medoids : Type := {
  medoid : list point -> point
}.

(** [textwrap.fill(text, width=w, break_long_words=False)]. *)
Class Textwrap : Type := {
  textwrap_fill : string -> Z -> string
}.

(** Modelled from the spec: [datamapplot.plot_rendering.render_plot] is not
    among the sources (the "rasterization/datashading backend" is out of
    scope); a call gives back "a figure/axes pair", or raises. *)
Class PlotRendering : Type := {
  figure : Type;
  axes : Type;
  render_plot : RenderPlot.call -> outcome (figure * axes)
}.

(** [matplotlib.colors.to_rgb]: three floats between 0 and 1, or a
    ValueError for a string that names no colour. *)
Class Matplotlib : Type := {
  to_rgb : color -> outcome (R * R * R);
  to_rgb_range : forall c r g b, to_rgb c = Gave (r, g, b) ->
    (0 <= r <= 1 /\ 0 <= g <= 1 /\ 0 <= b <= 1)%R
}.

(** Modelled from the spec: [datamapplot.interactive_rendering] is not among
    the sources.  [label_text_and_polygon_dataframes] gives the label
    dataframe of one label layer, "one row per cluster with anchor
    coordinates, optional boundary polygon"; [render_html] gives the HTML
    string; either may raise. *)
Class InteractiveRendering : Type := {
  label_text_and_polygon_dataframes :
    list string (* labels *) -> list point (* data_map_coords *) ->
    string (* noise_label *) -> bool (* use_medoids *) ->
    bool (* cluster_polygons *) -> R (* alpha *) ->
    outcome (list LabelFrame.row);
  render_html : RenderHtml.call -> outcome string
}.

(** ** create_plot *)

Module CreatePlot.

(** The parameters of [create_plot], under the names of the source. *)
Record args : Type := {
  data_map_coords : list point;
  labels : list string;
  title : option string;
  sub_title : option string;
  noise_label : string;
  noise_color : color;
  color_label_text : bool;
  color_label_arrows : bool;
  label_wrap_width : Z;
  label_color_map : option (gmap string color);
  figsize : R * R;
  dynamic_label_size : bool;
  dpi : R;
  force_matplotlib : bool;
  darkmode : bool;
  highlight_labels : option (list string);
  palette_hue_shift : R;
  palette_hue_radius_dependence : R;
  use_medoids : bool;
  cmap : option colormap;
  marker_color_array : option (list color);
  render_plot_kwds : gmap string pyval
}.

Section Body.
Context `{PaletteHandling} `{Medoids} `{Textwrap} `{PlotRendering}.
Variable a : args.

(** Lines 158-161. *)
Definition cluster_label_vector : list string := labels a.

Definition unique_non_noise_labels : list string :=
  filter (fun label => label <> noise_label a) (np_unique cluster_label_vector).

(** [data_map_coords[cluster_label_vector == i]]. *)
Definition cluster_rows (i : string) : result (list point) :=
  bool_index (data_map_coords a) (mask_eq cluster_label_vector i).

(** Lines 162-175. *)
Definition label_locations : result (list point) :=
  if use_medoids a then
    traverse (fun i => rows ← cluster_rows i; mret (medoid rows))
             unique_non_noise_labels
  else
    traverse (fun i => rows ← cluster_rows i; mret (mean_axis0 rows))
             unique_non_noise_labels.

(** Lines 176-179. *)
Definition label_text : list string :=
  map (fun x => textwrap_fill x (label_wrap_width a)) unique_non_noise_labels.

(** Lines 180-184. *)
Definition wrapped_highlight_labels : option (list string) :=
  match highlight_labels a with
  | Some hl => Some (map (fun x => textwrap_fill x (label_wrap_width a)) hl)
  | None => None
  end.

(** Lines 188-201: the palette of the auto-generated colour map. *)
Definition generate_palette (locations : list point) : list color :=
  match cmap a with
  | None =>
      palette_from_datamap (data_map_coords a) locations
        (palette_hue_shift a) (palette_hue_radius_dependence a)
  | Some cm =>
      palette_from_cmap_and_datamap cm (data_map_coords a) locations
        (palette_hue_radius_dependence a)
  end.

(** Lines 202-204. *)
Definition label_to_index_map : gmap string nat :=
  dict_of_pairs (imap (fun index name => (name, index)) unique_non_noise_labels).

(** [palette[label_to_index_map[x]] if x in label_to_index_map else
    noise_color]. *)
Definition palette_color (palette : list color) (x : string) : result color :=
  match label_to_index_map !! x with
  | Some index => seq_get palette index
  | None => Return (noise_color a)
  end.

(** Lines 205-216: the colour list and the colour map built from a palette. *)
Definition auto_color_list (palette : list color) : result (list color) :=
  traverse (palette_color palette) cluster_label_vector.

Definition auto_label_color_map (palette : list color)
  : result (gmap string color) :=
  entries ← traverse (fun x => c ← palette_color palette x; mret (x, c))
                     (np_unique cluster_label_vector);
  mret (dict_of_pairs entries).

(** Lines 218-221: the colour list under a colour map given by the caller. *)
Definition given_color_list (m : gmap string color) : result (list color) :=
  traverse (fun x => if decide (x <> noise_label a)
                     then dict_get m x
                     else Return (noise_color a))
           cluster_label_vector.

(** Lines 186-221: [(color_list, label_color_map)] after the branch. *)
Definition color_step (locations : list point)
  : result (list color * gmap string color) :=
  match label_color_map a with
  | None =>
      let palette := generate_palette locations in
      color_list ← auto_color_list palette;
      m ← auto_label_color_map palette;
      mret (color_list, m)
  | Some m =>
      color_list ← given_color_list m;
      mret (color_list, m)
  end.

(** Line 226, and again line 285. *)
Definition label_colors (m : gmap string color) : result (list color) :=
  traverse (dict_get m) unique_non_noise_labels.

(** Lines 228-235. *)
Definition label_text_colors (colors : list color) : option (list color) :=
  if color_label_text a then
    if darkmode a then Some (pastel_palette colors)
    else Some (deep_palette colors)
  else None.

(** Lines 237-240. *)
Definition label_arrow_colors (colors : list color) : option (list color) :=
  if color_label_arrows a then Some colors else None.

(** [np.sqrt(figsize[0] * figsize[1])]. *)
Definition figure_scale : R := sqrt (fst (figsize a) * snd (figsize a)).

(** Lines 243-253: the adjustments under [dynamic_label_size].  The cluster
    sizes are taken over every label, the noise label included; only the
    entries of the non-noise labels are kept. *)
Definition dynamic_adjustments : result (list R) :=
  let font_scale_factor := figure_scale in
  let cluster_sizes :=
    map (fun '(u, n) => (u, sqrt (INR n))) (value_counts cluster_label_vector) in
  let lowest := Rlist_min (map snd cluster_sizes) in
  let shifted := map (fun '(u, s) => (u, (s - lowest)%R)) cluster_sizes in
  let highest := Rlist_max (map snd shifted) in
  font ← match render_plot_kwds a !! "label_font_size" with
         | Some v =>
             match as_number v with
             | Some r => Return r
             | None => Raise (Exn TypeError Operator)
             end
         | None => Return font_scale_factor
         end;
  let scaled :=
    map (fun '(u, s) => (u, (s / highest * (font + 2) - 2)%R)) shifted in
  traverse (dict_get (dict_of_pairs scaled)) unique_non_noise_labels.

(** Lines 242-255. *)
Definition label_size_adjustments : result (list R) :=
  if dynamic_label_size a then dynamic_adjustments
  else Return (replicate (length unique_non_noise_labels) 0%R).

(** Lines 257-266: the heuristics for point size and alpha. *)
Definition n_points : Z := Z.of_nat (length (data_map_coords a)).

Definition matplotlib_branch : bool :=
  bool_decide (n_points < 100000)%Z || force_matplotlib a.

Definition magic_number : R :=
  np_clip (128 * Rpower 4 (- np_log10 (IZR n_points))) 0.05 64.

Definition heuristic_point_size : pyval :=
  if matplotlib_branch then
    let point_scale_factor := figure_scale in
    PyFloat (magic_number * (point_scale_factor / 2))
  else
    PyInt (py_int (figure_scale * dpi a) `div` 2048).

Definition heuristic_alpha : pyval :=
  if matplotlib_branch then PyFloat (np_clip magic_number 0.05 1)
  else PyFloat 1.

(** Lines 268-272: a value given by the caller replaces the heuristic one and
    leaves the keywords. *)
Definition point_size : pyval :=
  match render_plot_kwds a !! "point_size" with
  | Some v => v
  | None => heuristic_point_size
  end.

Definition alpha : pyval :=
  match render_plot_kwds a !! "alpha" with
  | Some v => v
  | None => heuristic_alpha
  end.

Definition forwarded_kwds : gmap string pyval :=
  delete "alpha" (delete "point_size" (render_plot_kwds a)).

(** Binding the keywords of the call of lines 274-294. *)
Definition bind_keywords : result unit :=
  if decide (Exists (fun k => is_Some (forwarded_kwds !! k))
                    RenderPlot.explicit_keywords)
  then Raise (Exn TypeError CallSite)
  else Return tt.

(** Everything up to the call of [render_plot]: the arguments it is called
    with. *)
Definition render_plot_call : result RenderPlot.call :=
  locations ← label_locations;
  '(color_list, m) ← color_step locations;
  let color_list :=
    match marker_color_array a with
    | Some given => given
    | None => color_list
    end in
  colors ← label_colors m;
  adjustments ← label_size_adjustments;
  highlight ← label_colors m;
  _ ← bind_keywords;
  mret {|
    RenderPlot.data_map_coords := data_map_coords a;
    RenderPlot.color_list := color_list;
    RenderPlot.label_text := label_text;
    RenderPlot.label_locations := locations;
    RenderPlot.title := title a;
    RenderPlot.sub_title := sub_title a;
    RenderPlot.point_size := point_size;
    RenderPlot.alpha := alpha;
    RenderPlot.label_text_colors :=
      if negb (color_label_text a) then None else label_text_colors colors;
    RenderPlot.label_arrow_colors :=
      if negb (color_label_arrows a) then None else label_arrow_colors colors;
    RenderPlot.highlight_colors := highlight;
    RenderPlot.figsize := figsize a;
    RenderPlot.noise_color := noise_color a;
    RenderPlot.label_size_adjustments := adjustments;
    RenderPlot.dpi := dpi a;
    RenderPlot.force_matplotlib := force_matplotlib a;
    RenderPlot.darkmode := darkmode a;
    RenderPlot.highlight_labels := wrapped_highlight_labels;
    RenderPlot.kwds := forwarded_kwds
  |}.

(** [create_plot]: lines 158-296. *)
Definition create_plot : result (figure * axes) :=
  c ← render_plot_call;
  '(fig, ax) ← call_helper "render_plot" (render_plot c);
  mret (fig, ax).

End Body.
End CreatePlot.

(** ** numpy and pandas on colour arrays *)

(** A value stored in an array of dtype [np.uint8]. *)
Definition to_uint8 (z : Z) : Z := z `mod` 256.

Definition rgb_to_uint8 (c : rgb) : rgb :=
  (to_uint8 c.1.1, to_uint8 c.1.2, to_uint8 c.2).

(** A dict kept as the list of its items, in insertion order, with unique
    keys: [d.get(k)] and [d[k]]. *)
Fixpoint items_lookup {K V} `{EqDecision K} (items : list (K * V)) (k : K)
  : option V :=
  match items with
  | [] => None
  | (k', v) :: items' => if decide (k' = k) then Some v else items_lookup items' k
  end.

Definition items_get {K V} `{EqDecision K} (items : list (K * V)) (k : K)
  : result V :=
  match items_lookup items k with
  | Some v => Return v
  | None => Raise (Exn KeyError Dict)
  end.

(** [color_vector[mask] = c] on an (n, 3) array of dtype uint8. *)
Definition mask_assign (mask : list bool) (c : rgb) (color_vector : list rgb)
  : result (list rgb) :=
  if decide (length mask = length color_vector)
  then Return (zip_with
                 (fun (hit : bool) old => if hit then rgb_to_uint8 c else old)
                 mask color_vector)
  else Raise (Exn IndexError Numpy).

(** [array.T[0]], [array.T[1]], [array.T[2]] for an array built from a list
    of triples: an empty list gives an array of shape (0,), which has no
    entry 0. *)
Definition columns (array : list rgb) : result (list Z * list Z * list Z) :=
  match array with
  | [] => Raise (Exn IndexError Numpy)
  | _ => Return (map (fun c => c.1.1) array, map (fun c => c.1.2) array,
                 map (fun c => c.2) array)
  end.

(** Assigning a sequence to a dataframe column: the lengths must agree. *)
Definition check_column_length {A} (n : nat) (values : list A) : result unit :=
  if decide (length values = n) then Return tt
  else Raise (Exn ValueError Pandas).

(** ** create_interactive_plot *)

Module CreateInteractivePlot.

(** The parameters of [create_interactive_plot], under the names of the
    source; [label_layers] are the remaining positional arguments. *)
Record args : Type := {
  data_map_coords : list point;
  label_layers : list (list string);
  hover_text : option (list string);
  inline_data : bool;
  noise_label : string;
  noise_color : color;
  color_label_text : bool;
  label_wrap_width : Z;
  label_color_map : option (gmap string color);
  width : pyval;
  height : pyval;
  darkmode : bool;
  palette_hue_shift : R;
  palette_hue_radius_dependence : R;
  cmap : option colormap;
  marker_size_array : option (list R);
  marker_color_array : option (list color);
  use_medoids : bool;
  cluster_boundary_polygons : bool;
  color_cluster_boundaries : bool;
  polygon_alpha : R;
  render_html_kwds : gmap string pyval
}.

Section Body.
Context `{PaletteHandling} `{Textwrap} `{Matplotlib} `{InteractiveRendering}.
Variable a : args.

(** [tuple(int(c * 255) for c in to_rgb(color))]. *)
Definition rgb255 (c : color) : result rgb :=
  '(r, g, b) ← call_helper "to_rgb" (to_rgb c);
  mret (py_int (r * 255), py_int (g * 255), py_int (b * 255)).

(** Lines 426-438. *)
Definition label_rows : result (list LabelFrame.row) :=
  frames ← traverse
    (fun labels =>
       call_helper "label_text_and_polygon_dataframes"
         (label_text_and_polygon_dataframes labels (data_map_coords a)
            (noise_label a) (use_medoids a) (cluster_boundary_polygons a)
            (polygon_alpha a)))
    (label_layers a);
  mret (concat frames).

(** [label_dataframe[["x", "y"]].values]. *)
Definition anchors (rows : list LabelFrame.row) : list point :=
  map (fun row => (LabelFrame.x row, LabelFrame.y row)) rows.

(** Lines 441-454. *)
Definition generate_palette (rows : list LabelFrame.row) : list color :=
  match cmap a with
  | None =>
      palette_from_datamap (data_map_coords a) (anchors rows)
        (palette_hue_shift a) (palette_hue_radius_dependence a)
  | Some cm =>
      palette_from_cmap_and_datamap cm (data_map_coords a) (anchors rows)
        (palette_hue_radius_dependence a)
  end.

(** The text variant of a colour list: deep on a light background, pastel in
    darkmode. *)
Definition text_variant (colors : list color) : list color :=
  if negb (darkmode a) then deep_palette colors else pastel_palette colors.

(** Lines 440-495: [(color_map, text_palette)] after the branch. *)
Definition color_step (rows : list LabelFrame.row)
  : result (gmap string rgb * list rgb) :=
  match label_color_map a with
  | None =>
      let palette := generate_palette rows in
      text_palette ← traverse rgb255 (text_variant palette);
      palette ← traverse rgb255 palette;
      mret (dict_of_pairs (zip (map LabelFrame.label rows) palette), text_palette)
  | Some m =>
      entries ← traverse (fun '(label, color) => c ← rgb255 color; mret (label, c))
                         (map_to_list m);
      colors ← traverse (fun row => dict_get m (LabelFrame.label row)) rows;
      text_palette ← traverse rgb255 (text_variant colors);
      mret (dict_of_pairs entries, text_palette)
  end.

(** Lines 497-510: the colour columns of the label dataframe, then the
    wrapped labels. *)
Definition wrap_label (row : LabelFrame.row) : LabelFrame.row :=
  {| LabelFrame.label :=
       textwrap_fill (LabelFrame.label row) (label_wrap_width a);
     LabelFrame.x := LabelFrame.x row;
     LabelFrame.y := LabelFrame.y row;
     LabelFrame.boundary := LabelFrame.boundary row |}.

Definition colored_label_rows (rows : list LabelFrame.row) (text_palette : list rgb)
  : result (list LabelFrame.colored_row) :=
  if color_label_text a || color_cluster_boundaries a then
    '(rs, gs, bs) ← columns text_palette;
    _ ← check_column_length (length rows) rs;
    mret (zip_with
            (fun row (c : rgb) =>
               {| LabelFrame.base := wrap_label row;
                  LabelFrame.r := c.1.1; LabelFrame.g := c.1.2;
                  LabelFrame.b := c.2; LabelFrame.a := 64 |})
            rows text_palette)
  else
    let grey := if negb (darkmode a) then 15%Z else 240%Z in
    mret (map (fun row =>
                 {| LabelFrame.base := wrap_label row;
                    LabelFrame.r := grey; LabelFrame.g := grey;
                    LabelFrame.b := grey; LabelFrame.a := 64 |})
              rows).

(** Lines 531-538, for one label layer: the integer codes of the labels. *)
Definition label_map (labels : list string) : list (string * Z) :=
  let enumerated := imap (fun i n => (n, Z.of_nat i)) (np_unique labels) in
  if decide (noise_label a ∈ map fst enumerated) then enumerated
  else enumerated ++ [(noise_label a, (-1)%Z)].

Definition label_unmap (labels : list string) : list (Z * string) :=
  map (fun '(n, i) => (i, n)) (label_map labels).

(** [pd.Series(labels).map(label_map)]: a label outside the dict would map
    to NaN, here [None]. *)
Definition cluster_label_vector (labels : list string) : list (option Z) :=
  map (items_lookup (label_map labels)) labels.

Definition unique_non_noise_labels (labels : list string) : result (list Z) :=
  noise_code ← items_get (label_map labels) (noise_label a);
  mret (filter (fun label => label <> noise_code)
               (map fst (label_unmap labels))).

(** Lines 539-542: the assignments of one layer. *)
Fixpoint paint (color_map : gmap string rgb) (labels : list string)
    (codes : list Z) (color_vector : list rgb) : result (list rgb) :=
  match codes with
  | [] => Return color_vector
  | label :: codes' =>
      name ← items_get (label_unmap labels) label;
      c ← dict_get color_map name;
      color_vector ← mask_assign
        (map (fun code => bool_decide (code = Some label))
             (cluster_label_vector labels))
        c color_vector;
      paint color_map labels codes' color_vector
  end.

Definition paint_layer (color_map : gmap string rgb) (labels : list string)
    (color_vector : list rgb) : result (list rgb) :=
  codes ← unique_non_noise_labels labels;
  paint color_map labels codes color_vector.

(** Lines 530-542: the layers, coarsest first. *)
Fixpoint paint_layers (color_map : gmap string rgb)
    (reversed_layers : list (list string)) (color_vector : list rgb)
  : result (list rgb) :=
  match reversed_layers with
  | [] => Return color_vector
  | labels :: rest =>
      color_vector ← paint_layer color_map labels color_vector;
      paint_layers color_map rest color_vector
  end.

(** Lines 524-550. *)
Definition color_vector (color_map : gmap string rgb) : result (list rgb) :=
  match marker_color_array a with
  | None =>
      noise ← rgb255 (noise_color a);
      paint_layers color_map (reverse (label_layers a))
        (replicate (length (data_map_coords a)) (rgb_to_uint8 noise))
  | Some given =>
      colors ← traverse rgb255 given;
      mret (map rgb_to_uint8 colors)
  end.

(** Lines 512-555. *)
Definition point_dataframe (color_map : gmap string rgb) : result PointFrame.t :=
  let n := length (data_map_coords a) in
  _ ← match hover_text a with
      | Some h => check_column_length n h
      | None => Return tt
      end;
  _ ← match marker_size_array a with
      | Some s => check_column_length n s
      | None => Return tt
      end;
  cv ← color_vector color_map;
  '(rs, gs, bs) ← columns cv;
  _ ← check_column_length n rs;
  mret {|
    PointFrame.x := map fst (data_map_coords a);
    PointFrame.y := map snd (data_map_coords a);
    PointFrame.hover_text := hover_text a;
    PointFrame.size := marker_size_array a;
    PointFrame.r := map to_uint8 rs;
    PointFrame.g := map to_uint8 gs;
    PointFrame.b := map to_uint8 bs;
    PointFrame.a := replicate n 180%Z
  |}.

(** Everything between the guard of line 423 and the call of [render_html]:
    the arguments it is called with. *)
Definition render_html_call : result RenderHtml.call :=
  rows ← label_rows;
  '(color_map, text_palette) ← color_step rows;
  label_dataframe ← colored_label_rows rows text_palette;
  points ← point_dataframe color_map;
  mret {|
    RenderHtml.point_dataframe := points;
    RenderHtml.label_dataframe := label_dataframe;
    RenderHtml.inline_data := inline_data a;
    RenderHtml.color_label_text := color_label_text a;
    RenderHtml.darkmode := darkmode a;
    RenderHtml.kwds := render_html_kwds a
  |}.

(** [create_interactive_plot]: lines 423-566.  [None] is Python's [None]. *)
Definition create_interactive_plot : result (option InteractiveFigure.t) :=
  if decide (length (label_layers a) = 0) then Return None
  else
    c ← render_html_call;
    html ← call_helper "render_html" (render_html c);
    mret (Some {| InteractiveFigure.html_str := html;
                  InteractiveFigure.width := width a;
                  InteractiveFigure.height := height a |}).

End Body.
End CreateInteractivePlot.

(** ** Vocabulary of the statements *)

(** The rows of [coords] whose label is [l], in the words of the spec: the
    points are paired with their labels and those labelled [l] are kept. *)
Definition rows_with_label (coords : list point) (labels : list string)
    (l : string) : list point :=
  map fst (filter (fun pl => pl.2 = l) (zip coords labels)).

(** Two coordinate arrays that differ only at the points labelled [noise]. *)
Definition agree_off_noise (noise : string) (labels : list string)
    (c c' : list point) : Prop :=
  length c = length c' /\
  forall j l, labels !! j = Some l -> l <> noise -> c !! j = c' !! j.

(** The anchor of the cluster labelled [l]: the medoid of its rows under
    [use_medoids], their coordinate-wise mean otherwise. *)
Definition anchor_of `{Medoids} (a : CreatePlot.args) (l : string) : point :=
  let rows :=
    rows_with_label (CreatePlot.data_map_coords a) (CreatePlot.labels a) l in
  if CreatePlot.use_medoids a then medoid rows else mean_axis0 rows.

(** The colour the auto-generated map gives a label, once the palette is
    known to be long enough. *)
Definition assigned_color (a : CreatePlot.args) (palette : list color)
    (x : string) : color :=
  match CreatePlot.label_to_index_map a !! x with
  | Some index => default (CreatePlot.noise_color a) (palette !! index)
  | None => CreatePlot.noise_color a
  end.

(** ** Sample collaborators

    One concrete choice of the collaborators, used to run the entry points
    on concrete calls. *)

Module Sample.

Definition base_colors : list color := ["#ff0000"; "#00ff00"; "#0000ff"].

Definition nth_color (base : list color) (i : nat) : color :=
  default "#000000" (base !! (i `mod` 3)%nat).

#[export] Instance palette_handling : PaletteHandling := {|
  palette_from_datamap coords locs hue_shift rwp :=
    imap (fun i _ => nth_color base_colors i) locs;
  palette_from_cmap_and_datamap cm coords locs rwp :=
    imap (fun i _ => nth_color (reverse base_colors) i) locs;
  deep_palette cs := map (fun _ => "#000000") cs;
  pastel_palette cs := map (fun _ => "#ffffff") cs;
  palette_from_datamap_length coords locs hue_shift rwp := length_imap _ locs;
  palette_from_cmap_and_datamap_length cm coords locs rwp := length_imap _ locs;
  deep_palette_length cs := length_map _ cs;
  pastel_palette_length cs := length_map _ cs
|}.

#[export] Instance medoids : Medoids := {|
  medoid rows := default (0%R, 0%R) (head rows)
|}.

#[export] Instance textwrap : Textwrap := {|
  textwrap_fill text w := text
|}.

#[export] Instance plot_rendering : PlotRendering := {|
  figure := RenderPlot.call;
  axes := list point;
  render_plot c := Gave (c, RenderPlot.data_map_coords c)
|}.

Definition sample_to_rgb (c : color) : outcome (R * R * R) :=
  if decide (c = "#ff0000") then Gave (1, 0, 0)%R
  else if decide (c = "#00ff00") then Gave (0, 1, 0)%R
  else if decide (c = "#0000ff") then Gave (0, 0, 1)%R
  else if decide (c = "#ffffff") then Gave (1, 1, 1)%R
  else if decide (c = "#000000") then Gave (0, 0, 0)%R
  else if decide (c = "#999999") then Gave (0.6, 0.6, 0.6)%R
  else Failed "Invalid RGBA argument".

(** The integer triples of the colours [sample_to_rgb] knows. *)
Definition sample_rgb255 (c : color) : rgb :=
  if decide (c = "#ff0000") then (255, 0, 0)%Z
  else if decide (c = "#00ff00") then (0, 255, 0)%Z
  else if decide (c = "#0000ff") then (0, 0, 255)%Z
  else if decide (c = "#ffffff") then (255, 255, 255)%Z
  else if decide (c = "#999999") then (153, 153, 153)%Z
  else (0, 0, 0)%Z.

Definition sample_colors : list color :=
  ["#ff0000"; "#00ff00"; "#0000ff"; "#ffffff"; "#000000"; "#999999"].

Lemma sample_to_rgb_range c r g b :
  sample_to_rgb c = Gave (r, g, b) ->
  (0 <= r <= 1 /\ 0 <= g <= 1 /\ 0 <= b <= 1)%R.
Proof.
  unfold sample_to_rgb.
  repeat case_decide; intros [= <- <- <-]; lra.
Qed.

#[export] Instance matplotlib : Matplotlib := {|
  to_rgb := sample_to_rgb;
  to_rgb_range := sample_to_rgb_range
|}.

#[export] Instance interactive_rendering : InteractiveRendering := {|
  label_text_and_polygon_dataframes labels coords noise use_medoids polygons alpha :=
    Gave (map (fun l =>
                 let anchor := mean_axis0 (rows_with_label coords labels l) in
                 {| LabelFrame.label := l;
                    LabelFrame.x := anchor.1;
                    LabelFrame.y := anchor.2;
                    LabelFrame.boundary := None |})
              (filter (fun l => l <> noise) (np_unique labels)));
  render_html c := Gave "<html></html>"
|}.

End Sample.

(** ** Sample calls *)

(** [create_plot(coords, labels, noise_color=.., label_color_map=..,
    dynamic_label_size=.., darkmode=.., **kwds)], every other keyword at the
    default of the source ([dpi] at matplotlib's default of 100). *)
Definition plot_call (coords : list point) (labels : list string)
    (noise_color : color) (label_color_map : option (gmap string color))
    (dynamic darkmode : bool) (kwds : gmap string pyval)
  : CreatePlot.args := {|
  CreatePlot.data_map_coords := coords;
  CreatePlot.labels := labels;
  CreatePlot.title := None;
  CreatePlot.sub_title := None;
  CreatePlot.noise_label := "Unlabelled";
  CreatePlot.noise_color := noise_color;
  CreatePlot.color_label_text := true;
  CreatePlot.color_label_arrows := false;
  CreatePlot.label_wrap_width := 16;
  CreatePlot.label_color_map := label_color_map;
  CreatePlot.figsize := (12%R, 12%R);
  CreatePlot.dynamic_label_size := dynamic;
  CreatePlot.dpi := 100%R;
  CreatePlot.force_matplotlib := false;
  CreatePlot.darkmode := darkmode;
  CreatePlot.highlight_labels := None;
  CreatePlot.palette_hue_shift := 0%R;
  CreatePlot.palette_hue_radius_dependence := 1%R;
  CreatePlot.use_medoids := false;
  CreatePlot.cmap := None;
  CreatePlot.marker_color_array := None;
  CreatePlot.render_plot_kwds := kwds
|}.

(** [create_plot(coords, labels)]. *)
Definition plot_defaults (coords : list point) (labels : list string)
  : CreatePlot.args :=
  plot_call coords labels "#999999" None false false ∅.

(** Four points: two in cluster "b", one in cluster "a", one unlabelled. *)
Definition four_points : list point :=
  [(0, 0); (2, 4); (5, 5); (9, 9)]%R.

Definition four_labels : list string := ["b"; "b"; "Unlabelled"; "a"].

(** What is enough for a call of [create_plot] to reach [render_plot]: as
    many labels as points, a given colour map that covers the non-noise
    labels, a numeric [label_font_size] where it is used, and no forwarded
    keyword that the call also writes out. *)
Definition reaches_render_plot (a : CreatePlot.args) : Prop :=
  length (CreatePlot.labels a) = length (CreatePlot.data_map_coords a) /\
  (forall m l, CreatePlot.label_color_map a = Some m ->
     l ∈ CreatePlot.labels a -> l <> CreatePlot.noise_label a ->
     is_Some (m !! l)) /\
  (forall v, CreatePlot.dynamic_label_size a = true ->
     CreatePlot.render_plot_kwds a !! "label_font_size" = Some v ->
     is_Some (as_number v)) /\
  Forall (fun k => CreatePlot.forwarded_kwds a !! k = None)
         RenderPlot.explicit_keywords.

(** The label of point [i] in the finest layer where it is not noise:
    [layers] are ordered finest first, as the docstring asks. *)
Fixpoint finest_label (noise : string) (layers : list (list string)) (i : nat)
  : option string :=
  match layers with
  | [] => None
  | labels :: rest =>
      match labels !! i with
      | Some l => if decide (l = noise) then finest_label noise rest i else Some l
      | None => finest_label noise rest i
      end
  end.

(** The marker colour of point [i] in a point dataframe. *)
Definition marker_color (p : PointFrame.t) (i : nat) : option rgb :=
  match PointFrame.r p !! i, PointFrame.g p !! i, PointFrame.b p !! i with
  | Some r, Some g, Some b => Some (r, g, b)
  | _, _, _ => None
  end.

(** The assignments of one layer, label by label: for each name in turn,
    [color_vector[labels == name] = color_map[name]]. *)
Fixpoint paint_names (color_map : gmap string rgb) (labels : list string)
    (names : list string) (color_vector : list rgb) : result (list rgb) :=
  match names with
  | [] => Return color_vector
  | name :: names' =>
      match dict_get color_map name with
      | Raise e => Raise e
      | Return c =>
          match mask_assign (mask_eq labels name) c
                  color_vector with
          | Raise e => Raise e
          | Return color_vector' =>
              paint_names color_map labels names' color_vector'
          end
      end
  end.

(** An RGB triple that fits an array of dtype uint8. *)
Definition rgb_in_range (c : rgb) : Prop :=
  (0 <= c.1.1 <= 255 /\ 0 <= c.1.2 <= 255 /\ 0 <= c.2 <= 255)%Z.

(** The unique non-noise labels of a layer of [create_interactive_plot],
    each with its integer code. *)
Definition painted_pairs (a : CreateInteractivePlot.args) (labels : list string)
  : list (string * Z) :=
  filter (fun p => p.1 <> CreateInteractivePlot.noise_label a)
         (CreateInteractivePlot.label_map a labels).

(** [create_interactive_plot(coords, *layers, label_color_map=..,
    marker_color_array=..)], every other keyword at the default of the
    source. *)
Definition interactive_call (coords : list point) (layers : list (list string))
    (label_color_map : option (gmap string color))
    (marker_color_array : option (list color))
  : CreateInteractivePlot.args := {|
  CreateInteractivePlot.data_map_coords := coords;
  CreateInteractivePlot.label_layers := layers;
  CreateInteractivePlot.hover_text := None;
  CreateInteractivePlot.inline_data := true;
  CreateInteractivePlot.noise_label := "Unlabelled";
  CreateInteractivePlot.noise_color := "#999999";
  CreateInteractivePlot.color_label_text := true;
  CreateInteractivePlot.label_wrap_width := 16;
  CreateInteractivePlot.label_color_map := label_color_map;
  CreateInteractivePlot.width := PyStr "100%";
  CreateInteractivePlot.height := PyInt 800;
  CreateInteractivePlot.darkmode := false;
  CreateInteractivePlot.palette_hue_shift := 0%R;
  CreateInteractivePlot.palette_hue_radius_dependence := 1%R;
  CreateInteractivePlot.cmap := None;
  CreateInteractivePlot.marker_size_array := None;
  CreateInteractivePlot.marker_color_array := marker_color_array;
  CreateInteractivePlot.use_medoids := false;
  CreateInteractivePlot.cluster_boundary_polygons := false;
  CreateInteractivePlot.color_cluster_boundaries := true;
  CreateInteractivePlot.polygon_alpha := 0.1%R;
  CreateInteractivePlot.render_html_kwds := ∅
|}.

(** Three points under two label layers, the finest first: the first point
    is labelled in both, the second in the coarse layer only, the third in
    neither. *)
Definition three_points : list point := [(0, 0); (1, 1); (7, 7)]%R.

Definition two_layers : list (list string) :=
  [["a"; "Unlabelled"; "Unlabelled"]; ["A"; "A"; "Unlabelled"]].

(** A computation raises library-level exceptions only. *)
Definition raises_library_level {A} (r : result A) : Prop :=
  forall e, r = Raise e -> library_level e = true.
(** * Properties *)

(** ** Fallible comprehensions *)

Section Traverse.
Context {A B : Type}.
Implicit Types (f : A -> result B) (l : list A).

Lemma traverse_map f (g : A -> B) l :
  (forall x, x ∈ l -> f x = Return (g x)) ->
  traverse f l = Return (map g l).
Proof.
  induction l as [|x l IH]; intros Hf; simpl; [done|].
  rewrite (Hf x) by set_solver.
  rewrite IH; [done|]. intros y Hy. apply Hf. set_solver.
Qed.

Lemma traverse_Return_inv f l ys :
  traverse f l = Return ys -> Forall2 (fun x y => f x = Return y) l ys.
Proof.
  revert ys. induction l as [|x l IH]; intros ys; simpl.
  - intros [= <-]. constructor.
  - destruct (f x) as [e|y] eqn:Hx; [done|].
    destruct (traverse f l) as [e|ys'] eqn:Hl; [done|].
    intros [= <-]. constructor; auto.
Qed.

Lemma traverse_length f l ys :
  traverse f l = Return ys -> length ys = length l.
Proof.
  intros Hys. apply traverse_Return_inv in Hys.
  symmetry. by eapply Forall2_length.
Qed.

Lemma traverse_Raise_inv f l e :
  traverse f l = Raise e -> exists x, x ∈ l /\ f x = Raise e.
Proof.
  induction l as [|x l IH]; simpl; [done|].
  destruct (f x) as [e'|y] eqn:Hx.
  - intros [= <-]. exists x. split; [set_solver|done].
  - destruct (traverse f l) as [e'|ys'] eqn:Hl; [|done].
    intros [= <-]. destruct IH as (x' & Hin & Hx'); [done|].
    exists x'. split; [set_solver|done].
Qed.

Lemma traverse_total f l :
  (forall x, x ∈ l -> exists y, f x = Return y) ->
  exists ys, traverse f l = Return ys.
Proof.
  intros Hf. destruct (traverse f l) as [e|ys] eqn:Hl; [|by eauto].
  apply traverse_Raise_inv in Hl as (x & Hin & Hx).
  destruct (Hf x Hin) as [y Hy]. congruence.
Qed.

Lemma traverse_ext f f' l :
  (forall x, x ∈ l -> f x = f' x) -> traverse f l = traverse f' l.
Proof.
  induction l as [|x l IH]; intros Hf; simpl; [done|].
  rewrite (Hf x) by set_solver. rewrite IH; [done|].
  intros y Hy. apply Hf. set_solver.
Qed.

End Traverse.

(** ** np.unique *)

Definition string_lt (x y : string) : Prop := String.compare x y = Lt.

Lemma string_lt_trans x y z : string_lt x y -> string_lt y z -> string_lt x z.
Proof.
  unfold string_lt. rewrite !String_as_OT.cmp_lt. apply String_as_OT.lt_trans.
Qed.

Lemma string_lt_irrefl x : ~ string_lt x x.
Proof.
  unfold string_lt. intros Hlt.
  assert (String.compare x x = Eq) as Heq by by apply String_as_OT.cmp_eq.
  congruence.
Qed.

Lemma string_compare_Gt x y : String.compare x y = Gt -> string_lt y x.
Proof.
  unfold string_lt. intros Hgt. rewrite String.compare_antisym, Hgt. done.
Qed.

Lemma elem_of_insert_sorted x y l :
  x ∈ insert_sorted y l <-> x = y \/ x ∈ l.
Proof.
  induction l as [|z l IH]; simpl.
  - set_solver.
  - destruct (String.compare y z) eqn:Hc.
    + apply String.compare_eq_iff in Hc as ->. set_solver.
    + set_solver.
    + rewrite !elem_of_cons, IH. tauto.
Qed.

Lemma elem_of_np_unique x v : x ∈ np_unique v <-> x ∈ v.
Proof.
  unfold np_unique. induction v as [|y v IH]; simpl; [done|].
  rewrite elem_of_insert_sorted, IH. set_solver.
Qed.

Lemma insert_sorted_sorted y l :
  StronglySorted string_lt l -> StronglySorted string_lt (insert_sorted y l).
Proof.
  induction 1 as [|z l Hs IH Hz]; simpl.
  - repeat constructor.
  - destruct (String.compare y z) eqn:Hc.
    + by constructor.
    + constructor; [by constructor|].
      constructor; [done|].
      eapply Forall_impl; [exact Hz|]. intros w Hw.
      by eapply string_lt_trans.
    + constructor; [done|].
      apply Forall_forall. intros w Hw.
      apply elem_of_insert_sorted in Hw as [->|Hw].
      * by apply string_compare_Gt.
      * by eapply Forall_forall in Hz.
Qed.

Lemma np_unique_sorted v : StronglySorted string_lt (np_unique v).
Proof.
  unfold np_unique. induction v; simpl; [constructor|].
  by apply insert_sorted_sorted.
Qed.

Lemma sorted_NoDup l : StronglySorted string_lt l -> NoDup l.
Proof.
  induction 1 as [|z l Hs IH Hz]; constructor; [|done].
  intros Hin. eapply Forall_forall in Hz; [|done].
  by apply string_lt_irrefl in Hz.
Qed.

Lemma np_unique_NoDup v : NoDup (np_unique v).
Proof. apply sorted_NoDup, np_unique_sorted. Qed.

(** ** Dicts built by comprehension *)

Lemma dict_of_pairs_snoc {V} (kvs : list (string * V)) k v :
  dict_of_pairs (kvs ++ [(k, v)]) = <[k := v]> (dict_of_pairs kvs).
Proof. unfold dict_of_pairs. by rewrite foldl_app. Qed.

Lemma dict_of_pairs_lookup_None {V} (kvs : list (string * V)) k :
  k ∉ map fst kvs -> dict_of_pairs kvs !! k = None.
Proof.
  induction kvs as [|[k' v'] kvs IH] using rev_ind; intros Hk.
  - done.
  - rewrite dict_of_pairs_snoc. rewrite map_app in Hk. simpl in Hk.
    rewrite lookup_insert_ne by set_solver. apply IH. set_solver.
Qed.

Lemma dict_of_pairs_lookup_Some {V} (kvs : list (string * V)) k v :
  NoDup (map fst kvs) -> (k, v) ∈ kvs -> dict_of_pairs kvs !! k = Some v.
Proof.
  induction kvs as [|[k' v'] kvs IH] using rev_ind; intros Hnd Hin.
  - set_solver.
  - rewrite dict_of_pairs_snoc. rewrite map_app in Hnd. simpl in Hnd.
    apply NoDup_app in Hnd as (Hnd & Hdisj & _).
    apply elem_of_app in Hin as [Hin|Hin].
    + assert (k <> k') as Hne.
      { intros ->. apply (Hdisj k'); [|set_solver].
        apply list_elem_of_fmap. by exists (k', v). }
      rewrite lookup_insert_ne by done. by apply IH.
    + apply list_elem_of_singleton in Hin as [= -> ->].
      by rewrite lookup_insert_eq.
Qed.

Lemma dict_of_pairs_dom {V} (kvs : list (string * V)) k :
  is_Some (dict_of_pairs kvs !! k) <-> k ∈ map fst kvs.
Proof.
  induction kvs as [|[k' v'] kvs IH] using rev_ind.
  - unfold dict_of_pairs. simpl. rewrite lookup_empty, is_Some_alt. set_solver.
  - rewrite dict_of_pairs_snoc, map_app. simpl.
    destruct (decide (k = k')) as [->|Hne].
    + rewrite lookup_insert_eq. split; [set_solver|by eauto].
    + rewrite lookup_insert_ne by done. rewrite IH. set_solver.
Qed.

(** ** Boolean masks *)

Lemma take_masked_rows_with_label coords labels l :
  take_masked coords (mask_eq labels l) = rows_with_label coords labels l.
Proof.
  unfold rows_with_label, mask_eq.
  revert labels. induction coords as [|p coords IH]; intros [|x labels]; simpl;
    try done.
  rewrite filter_cons. simpl.
  destruct (decide (x = l)) as [->|Hne].
  - rewrite bool_decide_eq_true_2 by done. simpl. by rewrite IH.
  - rewrite bool_decide_eq_false_2 by done. by rewrite IH.
Qed.

Lemma bool_index_mask_eq coords labels l :
  length labels = length coords ->
  bool_index coords (mask_eq labels l) = Return (rows_with_label coords labels l).
Proof.
  intros Hlen. unfold bool_index, mask_eq. rewrite length_map.
  rewrite decide_True by done. by rewrite <- take_masked_rows_with_label.
Qed.

Lemma bool_index_Return_inv {A} (rows : list A) mask sel :
  bool_index rows mask = Return sel ->
  length mask = length rows /\ sel = take_masked rows mask.
Proof. unfold bool_index. case_decide; naive_solver. Qed.

Lemma rows_with_label_agree noise labels c c' l :
  agree_off_noise noise labels c c' -> l <> noise ->
  rows_with_label c labels l = rows_with_label c' labels l.
Proof.
  unfold rows_with_label. intros [Hlen Hag] Hl.
  revert c c' Hlen Hag.
  induction labels as [|x labels IH]; intros [|p c] [|p' c'] Hlen Hag;
    simpl in *; try done.
  rewrite !filter_cons. simpl.
  assert (map fst (filter (fun pl => pl.2 = l) (zip c labels))
          = map fst (filter (fun pl => pl.2 = l) (zip c' labels))) as Htl.
  { apply IH; [lia|]. intros j l' Hj. exact (Hag (S j) l' Hj). }
  destruct (decide (x = l)) as [->|Hne]; [|done].
  simpl. rewrite Htl. f_equal.
  specialize (Hag 0%nat l eq_refl Hl). simpl in Hag. congruence.
Qed.

(** ** create_plot: labels and anchors *)

(** Unfolds the binds of the [result] monad. *)
Ltac unfold_bind :=
  unfold mbind, result_mbind, result_bind, mret, result_mret in *.

Section CreatePlotAnchors.
Import CreatePlot.
Context `{PaletteHandling} `{Medoids} `{Textwrap} `{PlotRendering}.
Implicit Types (a : args).

Lemma elem_of_unique_non_noise_labels a l :
  l ∈ unique_non_noise_labels a <-> l ∈ labels a /\ l <> noise_label a.
Proof.
  unfold unique_non_noise_labels, cluster_label_vector.
  rewrite list_elem_of_filter, elem_of_np_unique. tauto.
Qed.

Lemma noise_label_not_unique_non_noise a :
  noise_label a ∉ unique_non_noise_labels a.
Proof. rewrite elem_of_unique_non_noise_labels. tauto. Qed.

Lemma unique_non_noise_labels_sorted a :
  StronglySorted string_lt (unique_non_noise_labels a).
Proof.
  unfold unique_non_noise_labels.
  generalize (np_unique_sorted (cluster_label_vector a)).
  induction 1 as [|z l Hs IH Hz]; [constructor|].
  rewrite filter_cons. case_decide; [|done].
  constructor; [done|].
  apply Forall_forall. intros w Hw. apply list_elem_of_filter in Hw as [_ Hw].
  by eapply Forall_forall in Hz.
Qed.

Lemma unique_non_noise_labels_NoDup a : NoDup (unique_non_noise_labels a).
Proof. apply sorted_NoDup, unique_non_noise_labels_sorted. Qed.

Lemma cluster_rows_ok a l :
  length (labels a) = length (data_map_coords a) ->
  cluster_rows a l
  = Return (rows_with_label (data_map_coords a) (labels a) l).
Proof. intros Hlen. by apply bool_index_mask_eq. Qed.

Lemma cluster_rows_Return_inv a l rows :
  cluster_rows a l = Return rows ->
  length (labels a) = length (data_map_coords a) /\
  rows = rows_with_label (data_map_coords a) (labels a) l.
Proof.
  unfold cluster_rows, cluster_label_vector. intros Hr.
  apply bool_index_Return_inv in Hr as [Hlen ->].
  unfold mask_eq in Hlen. rewrite length_map in Hlen.
  by rewrite take_masked_rows_with_label.
Qed.

(** With as many labels as points, every anchor is computed. *)
Lemma label_locations_ok a :
  length (labels a) = length (data_map_coords a) ->
  label_locations a = Return (map (anchor_of a) (unique_non_noise_labels a)).
Proof.
  intros Hlen. unfold label_locations, anchor_of.
  destruct (use_medoids a); apply traverse_map; intros l _;
    by rewrite cluster_rows_ok.
Qed.

(** Whenever the anchors are computed, they are these; with at least one
    cluster this takes as many labels as points. *)
Lemma label_locations_Return_inv a locations :
  label_locations a = Return locations ->
  locations = map (anchor_of a) (unique_non_noise_labels a) /\
  (unique_non_noise_labels a <> [] ->
   length (labels a) = length (data_map_coords a)).
Proof.
  intros Hloc.
  assert (Forall2 (fun l p =>
            length (labels a) = length (data_map_coords a) /\ p = anchor_of a l)
            (unique_non_noise_labels a) locations) as Hall.
  { unfold label_locations in Hloc. unfold anchor_of.
    destruct (use_medoids a); apply traverse_Return_inv in Hloc;
      (eapply Forall2_impl; [exact Hloc|]); intros l p; cbn beta;
      unfold_bind; destruct (cluster_rows a l) as [e|rows] eqn:Hr; try done;
      apply cluster_rows_Return_inv in Hr as [Hlen ->]; naive_solver. }
  split.
  - clear Hloc. induction Hall as [|l p ls ps [_ ->] _ IH]; simpl; [done|].
    congruence.
  - destruct Hall as [|l p ls ps [Hlen _] _]; [done|by intros _].
Qed.

(** The anchors do not change when only noise points move. *)
Lemma anchor_of_agree a a' l :
  labels a' = labels a -> use_medoids a' = use_medoids a ->
  agree_off_noise (noise_label a) (labels a)
    (data_map_coords a) (data_map_coords a') ->
  l <> noise_label a ->
  anchor_of a' l = anchor_of a l.
Proof.
  intros Hl Hm Hag Hne. unfold anchor_of. rewrite Hl, Hm.
  by rewrite (rows_with_label_agree _ _ _ _ _ Hag Hne).
Qed.

(** What a call that reaches [render_plot] went through. *)
Lemma render_plot_call_Return_inv a c :
  render_plot_call a = Return c ->
  exists locations colors m label_cols adjustments,
    label_locations a = Return locations /\
    color_step a locations = Return (colors, m) /\
    label_colors a m = Return label_cols /\
    label_size_adjustments a = Return adjustments /\
    bind_keywords a = Return tt /\
    c = {|
      RenderPlot.data_map_coords := data_map_coords a;
      RenderPlot.color_list :=
        match marker_color_array a with
        | Some given => given
        | None => colors
        end;
      RenderPlot.label_text := label_text a;
      RenderPlot.label_locations := locations;
      RenderPlot.title := title a;
      RenderPlot.sub_title := sub_title a;
      RenderPlot.point_size := point_size a;
      RenderPlot.alpha := alpha a;
      RenderPlot.label_text_colors :=
        if negb (color_label_text a) then None
        else label_text_colors a label_cols;
      RenderPlot.label_arrow_colors :=
        if negb (color_label_arrows a) then None
        else label_arrow_colors a label_cols;
      RenderPlot.highlight_colors := label_cols;
      RenderPlot.figsize := figsize a;
      RenderPlot.noise_color := noise_color a;
      RenderPlot.label_size_adjustments := adjustments;
      RenderPlot.dpi := dpi a;
      RenderPlot.force_matplotlib := force_matplotlib a;
      RenderPlot.darkmode := darkmode a;
      RenderPlot.highlight_labels := wrapped_highlight_labels a;
      RenderPlot.kwds := forwarded_kwds a
    |}.
Proof.
  unfold render_plot_call. unfold_bind.
  destruct (label_locations a) as [e|locations] eqn:Hloc; [done|].
  destruct (color_step a locations) as [e|[colors m]] eqn:Hcol; [done|].
  destruct (label_colors a m) as [e|label_cols] eqn:Hlc; [done|].
  destruct (label_size_adjustments a) as [e|adjustments] eqn:Hadj; [done|].
  destruct (bind_keywords a) as [e|[]] eqn:Hbind; [done|].
  intros [= <-]. by exists locations, colors, m, label_cols, adjustments.
Qed.

End CreatePlotAnchors.

(** ** create_plot: the auto-generated colour map *)

Section CreatePlotColors.
Import CreatePlot.
Context `{PaletteHandling} `{Medoids} `{Textwrap} `{PlotRendering}.
Implicit Types (a : args).

Lemma fst_imap_swap (l : list string) :
  map fst (imap (fun index name => (name, index)) l) = l.
Proof.
  change (fst <$> imap (fun index name => (name, index)) l = l).
  rewrite fmap_imap.
  etrans; [apply (imap_ext _ (const (fun x : string => x))); done|].
  rewrite imap_const. apply map_id.
Qed.

Lemma label_to_index_map_lookup a i l :
  unique_non_noise_labels a !! i = Some l ->
  label_to_index_map a !! l = Some i.
Proof.
  intros Hi. unfold label_to_index_map. apply dict_of_pairs_lookup_Some.
  - rewrite fst_imap_swap. apply unique_non_noise_labels_NoDup.
  - apply elem_of_lookup_imap. by exists i, l.
Qed.

Lemma label_to_index_map_lookup_inv a i l :
  label_to_index_map a !! l = Some i ->
  unique_non_noise_labels a !! i = Some l.
Proof.
  intros Hl.
  assert (l ∈ unique_non_noise_labels a) as Hin.
  { rewrite <- (fst_imap_swap (unique_non_noise_labels a)).
    apply dict_of_pairs_dom. by exists i. }
  apply list_elem_of_lookup in Hin as [j Hj].
  pose proof (label_to_index_map_lookup a j l Hj). congruence.
Qed.

Lemma label_to_index_map_noise a : label_to_index_map a !! noise_label a = None.
Proof.
  destruct (label_to_index_map a !! noise_label a) as [i|] eqn:Hl; [|done].
  apply label_to_index_map_lookup_inv in Hl.
  apply list_elem_of_lookup_2 in Hl.
  by apply noise_label_not_unique_non_noise in Hl.
Qed.

Lemma generate_palette_length a locations :
  length (generate_palette a locations) = length locations.
Proof.
  unfold generate_palette. destruct (cmap a).
  - apply palette_from_cmap_and_datamap_length.
  - apply palette_from_datamap_length.
Qed.

Lemma palette_color_ok a palette x :
  length (unique_non_noise_labels a) <= length palette ->
  palette_color a palette x = Return (assigned_color a palette x).
Proof.
  intros Hlen. unfold palette_color, assigned_color.
  destruct (label_to_index_map a !! x) as [i|] eqn:Hx; [|done].
  apply label_to_index_map_lookup_inv, lookup_lt_Some in Hx.
  unfold seq_get. destruct (palette !! i) as [c|] eqn:Hi; [done|].
  apply lookup_ge_None in Hi. lia.
Qed.

Lemma auto_color_list_ok a palette :
  length (unique_non_noise_labels a) <= length palette ->
  auto_color_list a palette
  = Return (map (assigned_color a palette) (labels a)).
Proof.
  intros Hlen. unfold auto_color_list, cluster_label_vector.
  apply traverse_map. intros x _. by apply palette_color_ok.
Qed.

Lemma auto_label_color_map_ok a palette :
  length (unique_non_noise_labels a) <= length palette ->
  auto_label_color_map a palette
  = Return (dict_of_pairs
              (map (fun x => (x, assigned_color a palette x))
                   (np_unique (labels a)))).
Proof.
  intros Hlen. unfold auto_label_color_map, cluster_label_vector. unfold_bind.
  rewrite (traverse_map _ (fun x => (x, assigned_color a palette x))); [done|].
  intros x _. by rewrite palette_color_ok.
Qed.

Lemma auto_map_lookup a palette x :
  dict_of_pairs (map (fun x => (x, assigned_color a palette x))
                     (np_unique (labels a))) !! x
  = if decide (x ∈ labels a) then Some (assigned_color a palette x) else None.
Proof.
  assert (map fst (map (fun x => (x, assigned_color a palette x))
                       (np_unique (labels a))) = np_unique (labels a)) as Hfst.
  { rewrite map_map. simpl. apply map_id. }
  case_decide as Hin.
  - apply dict_of_pairs_lookup_Some.
    + rewrite Hfst. apply np_unique_NoDup.
    + apply list_elem_of_fmap. exists x. by rewrite elem_of_np_unique.
  - apply dict_of_pairs_lookup_None. rewrite Hfst. by rewrite elem_of_np_unique.
Qed.

End CreatePlotColors.

(** ** create_plot: reaching the renderer *)

Section CreatePlotReach.
Import CreatePlot.
Context `{PaletteHandling} `{Medoids} `{Textwrap} `{PlotRendering}.
Implicit Types (a : args).

Lemma color_step_auto_ok a locations :
  label_color_map a = None ->
  length locations = length (unique_non_noise_labels a) ->
  let palette := generate_palette a locations in
  color_step a locations
  = Return (map (assigned_color a palette) (labels a),
            dict_of_pairs (map (fun x => (x, assigned_color a palette x))
                               (np_unique (labels a)))).
Proof.
  intros Hnone Hlen palette.
  assert (length (unique_non_noise_labels a) <= length palette) as Hle.
  { unfold palette. rewrite generate_palette_length. lia. }
  unfold color_step. rewrite Hnone. fold palette. unfold_bind.
  by rewrite auto_color_list_ok, auto_label_color_map_ok.
Qed.

Lemma assigned_color_at a palette i l :
  length (unique_non_noise_labels a) <= length palette ->
  unique_non_noise_labels a !! i = Some l ->
  exists c, palette !! i = Some c /\ assigned_color a palette l = c.
Proof.
  intros Hlen Hi. unfold assigned_color.
  rewrite (label_to_index_map_lookup a i l Hi).
  destruct (palette !! i) as [c|] eqn:Hp; [by exists c|].
  apply lookup_ge_None in Hp. apply lookup_lt_Some in Hi. lia.
Qed.

Lemma given_color_list_ok a m :
  (forall l, l ∈ labels a -> l <> noise_label a -> is_Some (m !! l)) ->
  exists colors, given_color_list a m = Return colors.
Proof.
  intros Hcov. unfold given_color_list, cluster_label_vector.
  apply traverse_total. intros x Hx. case_decide as Hn; [|by eauto].
  destruct (Hcov x Hx Hn) as [c Hc]. exists c. unfold dict_get. by rewrite Hc.
Qed.

Lemma given_color_list_Return_inv a m colors :
  given_color_list a m = Return colors ->
  forall l, l ∈ labels a -> l <> noise_label a -> is_Some (m !! l).
Proof.
  intros Hg l Hin Hne. apply traverse_Return_inv in Hg.
  apply list_elem_of_lookup in Hin as [j Hj].
  destruct (Forall2_lookup_l _ _ _ _ _ Hg Hj) as (c & _ & Hc).
  rewrite decide_True in Hc by done. unfold dict_get in Hc.
  destruct (m !! l); [by eauto|done].
Qed.

(** The colour map after the colour step has a colour for every unique
    non-noise label. *)
Lemma color_step_covers a locations colors m :
  length locations = length (unique_non_noise_labels a) ->
  color_step a locations = Return (colors, m) ->
  forall l, l ∈ unique_non_noise_labels a -> is_Some (m !! l).
Proof.
  intros Hlen Hstep l Hl.
  pose proof Hl as Hl'. apply elem_of_unique_non_noise_labels in Hl' as [Hin Hne].
  destruct (label_color_map a) as [given|] eqn:Hmap.
  - unfold color_step in Hstep. rewrite Hmap in Hstep. unfold_bind.
    destruct (given_color_list a given) as [e|cs] eqn:Hg; [done|].
    injection Hstep as <- <-. by eapply given_color_list_Return_inv.
  - rewrite color_step_auto_ok in Hstep by done. injection Hstep as <- <-.
    rewrite auto_map_lookup, decide_True by done. by eauto.
Qed.

Lemma label_colors_ok a m :
  (forall l, l ∈ unique_non_noise_labels a -> is_Some (m !! l)) ->
  exists base, label_colors a m = Return base.
Proof.
  intros Hcov. apply traverse_total. intros l Hl.
  destruct (Hcov l Hl) as [c Hc]. exists c. unfold dict_get. by rewrite Hc.
Qed.

Lemma label_colors_Return_inv a m base :
  label_colors a m = Return base ->
  Forall2 (fun l c => m !! l = Some c) (unique_non_noise_labels a) base.
Proof.
  intros Hb. apply traverse_Return_inv in Hb.
  eapply Forall2_impl; [exact Hb|]. intros l c. unfold dict_get.
  destruct (m !! l); naive_solver.
Qed.

Lemma value_counts_keys v : map fst (value_counts v) = np_unique v.
Proof. unfold value_counts. rewrite map_map. apply map_id. Qed.

Lemma dict_get_total {V} (kvs : list (string * V)) (keys : list string) :
  (forall k, k ∈ keys -> k ∈ map fst kvs) ->
  exists vs, traverse (dict_get (dict_of_pairs kvs)) keys = Return vs.
Proof.
  intros Hkeys. apply traverse_total. intros k Hk.
  destruct (proj2 (dict_of_pairs_dom kvs k) (Hkeys k Hk)) as [v Hv].
  exists v. unfold dict_get. by rewrite Hv.
Qed.

Lemma dynamic_adjustments_ok a :
  (forall v, render_plot_kwds a !! "label_font_size" = Some v ->
     is_Some (as_number v)) ->
  exists adjustments, dynamic_adjustments a = Return adjustments.
Proof.
  intros Hfont. unfold dynamic_adjustments. cbv zeta. unfold_bind.
  assert (forall l, l ∈ unique_non_noise_labels a ->
            l ∈ map fst (value_counts (cluster_label_vector a))) as Hkeys.
  { intros l Hl. rewrite value_counts_keys, elem_of_np_unique.
    by apply elem_of_unique_non_noise_labels in Hl as [Hin _]. }
  destruct (render_plot_kwds a !! "label_font_size") as [v|] eqn:Hv.
  - destruct (Hfont v eq_refl) as [r ->].
    apply dict_get_total. intros l Hl. rewrite !map_map. apply Hkeys in Hl.
    erewrite map_ext; [exact Hl|]. by intros [].
  - apply dict_get_total. intros l Hl. rewrite !map_map. apply Hkeys in Hl.
    erewrite map_ext; [exact Hl|]. by intros [].
Qed.

Lemma label_size_adjustments_length a adjustments :
  label_size_adjustments a = Return adjustments ->
  length adjustments = length (unique_non_noise_labels a).
Proof.
  unfold label_size_adjustments. destruct (dynamic_label_size a).
  - unfold dynamic_adjustments. cbv zeta. unfold_bind.
    destruct (render_plot_kwds a !! "label_font_size") as [v|];
      [destruct (as_number v); [|done]|]; apply traverse_length.
  - intros [= <-]. apply length_replicate.
Qed.

Lemma bind_keywords_ok a :
  Forall (fun k => forwarded_kwds a !! k = None) RenderPlot.explicit_keywords ->
  bind_keywords a = Return tt.
Proof.
  intros Hall. unfold bind_keywords. rewrite decide_False; [done|].
  intros Hex. apply Exists_exists in Hex as (k & Hk & [v Hv]).
  eapply Forall_forall in Hall; [|done]. congruence.
Qed.

(** A well-formed call reaches [render_plot]. *)
Lemma render_plot_call_total a :
  reaches_render_plot a -> exists c, render_plot_call a = Return c.
Proof.
  intros (Hlen & Hcov & Hfont & Hkw).
  unfold render_plot_call. unfold_bind.
  rewrite (label_locations_ok a Hlen).
  set (locations := map (anchor_of a) (unique_non_noise_labels a)).
  assert (length locations = length (unique_non_noise_labels a)) as Hll
    by apply length_map.
  assert (exists colors m, color_step a locations = Return (colors, m))
    as (colors & m & Hstep).
  { destruct (label_color_map a) as [given|] eqn:Hmap.
    - destruct (given_color_list_ok a given) as [cs Hcs]; [by eauto|].
      exists cs, given. unfold color_step. rewrite Hmap. unfold_bind.
      by rewrite Hcs.
    - eexists _, _. by apply color_step_auto_ok. }
  rewrite Hstep.
  destruct (label_colors_ok a m) as [base Hbase];
    [by eapply color_step_covers|].
  rewrite Hbase.
  assert (exists adjustments, label_size_adjustments a = Return adjustments)
    as [adjustments Hadj].
  { unfold label_size_adjustments.
    destruct (dynamic_label_size a) eqn:Hdyn; [|by eauto].
    apply dynamic_adjustments_ok. by eauto. }
  rewrite Hadj, (bind_keywords_ok a Hkw). by eauto.
Qed.

End CreatePlotReach.

(** ** create_plot: point size and alpha *)

Lemma np_clip_bounds x lo hi :
  (lo <= hi)%R -> (lo <= np_clip x lo hi <= hi)%R.
Proof.
  intros Hle. unfold np_clip, Rmin, Rmax.
  repeat destruct (Rle_dec _ _); lra.
Qed.

Section CreatePlotHeuristics.
Import CreatePlot.
Implicit Types (a : args).

Lemma magic_number_bounds a : (0.05 <= magic_number a <= 64)%R.
Proof. unfold magic_number. apply np_clip_bounds. lra. Qed.

Lemma point_size_heuristic a :
  render_plot_kwds a !! "point_size" = None ->
  point_size a = heuristic_point_size a.
Proof. intros Hp. unfold point_size. by rewrite Hp. Qed.

Lemma alpha_heuristic a :
  render_plot_kwds a !! "alpha" = None -> alpha a = heuristic_alpha a.
Proof. intros Hp. unfold alpha. by rewrite Hp. Qed.

(** The heuristics read the point count, the figure size, the dpi and the
    branch only. *)
Lemma heuristics_closed_form a a' :
  length (data_map_coords a') = length (data_map_coords a) ->
  figsize a' = figsize a -> dpi a' = dpi a ->
  matplotlib_branch a' = matplotlib_branch a ->
  heuristic_point_size a' = heuristic_point_size a /\
  heuristic_alpha a' = heuristic_alpha a.
Proof.
  intros Hn Hf Hd Hb.
  unfold heuristic_point_size, heuristic_alpha, magic_number, figure_scale,
    n_points.
  by rewrite Hn, Hf, Hd, Hb.
Qed.

End CreatePlotHeuristics.

(** ** create_interactive_plot: dicts kept as item lists *)

Section Items.
Context {K V : Type} `{EqDecision K}.
Implicit Types (items : list (K * V)).

Lemma items_lookup_Some_elem items k v :
  items_lookup items k = Some v -> (k, v) ∈ items.
Proof.
  induction items as [|[k' v'] items IH]; simpl; [done|].
  case_decide as Hk.
  - intros [= ->]. subst. by left.
  - intros Hl. right. by apply IH.
Qed.

Lemma items_lookup_elem items k v :
  NoDup (map fst items) -> (k, v) ∈ items -> items_lookup items k = Some v.
Proof.
  induction items as [|[k' v'] items IH]; simpl; intros Hnd Hin.
  - by apply elem_of_nil in Hin.
  - apply NoDup_cons in Hnd as [Hk' Hnd].
    apply elem_of_cons in Hin as [[= -> ->]|Hin].
    + by rewrite decide_True.
    + rewrite decide_False; [by apply IH|].
      intros ->. apply Hk'. apply list_elem_of_fmap. by exists (k, v).
Qed.

Lemma items_lookup_None items k :
  k ∉ map fst items -> items_lookup items k = None.
Proof.
  intros Hk. destruct (items_lookup items k) as [v|] eqn:Hl; [|done].
  apply items_lookup_Some_elem in Hl. exfalso. apply Hk.
  apply list_elem_of_fmap. by exists (k, v).
Qed.

End Items.

(** ** create_interactive_plot: the codes of a layer *)

Section LabelCodes.
Import CreateInteractivePlot.
Variable a : args.
Implicit Types (labels : list string).

Lemma enumerate_keys (l : list string) :
  map fst (imap (fun i n => (n, Z.of_nat i)) l) = l.
Proof.
  change (fst <$> imap (fun i n => (n, Z.of_nat i)) l = l).
  rewrite fmap_imap.
  etrans; [apply (imap_ext _ (const (fun x : string => x))); done|].
  rewrite imap_const. apply map_id.
Qed.

Lemma enumerate_codes_from (l : list string) (n : nat) :
  map snd (imap (fun i x => (x, Z.of_nat (n + i))) l)
  = map Z.of_nat (seq n (length l)).
Proof.
  revert n. induction l as [|x l IH]; intros n; [done|].
  rewrite imap_cons. simpl. f_equal; [f_equal; lia|].
  rewrite <- (IH (S n)). f_equal. apply imap_ext. intros i y _. simpl.
  f_equal. f_equal. lia.
Qed.

Lemma enumerate_codes (l : list string) :
  map snd (imap (fun i n => (n, Z.of_nat i)) l)
  = map Z.of_nat (seq 0 (length l)).
Proof. apply (enumerate_codes_from l 0). Qed.

Lemma label_map_keys labels :
  map fst (label_map a labels)
  = (np_unique labels
     ++ (if decide (noise_label a ∈ np_unique labels) then []
         else [noise_label a]))%list.
Proof.
  unfold label_map. cbv zeta. rewrite enumerate_keys.
  case_decide; [by rewrite enumerate_keys, app_nil_r|].
  by rewrite map_app, enumerate_keys.
Qed.

Lemma label_map_codes labels :
  map snd (label_map a labels)
  = (map Z.of_nat (seq 0 (length (np_unique labels)))
     ++ (if decide (noise_label a ∈ np_unique labels) then []
         else [(-1)%Z]))%list.
Proof.
  unfold label_map. cbv zeta. rewrite enumerate_keys.
  case_decide; [by rewrite enumerate_codes, app_nil_r|].
  by rewrite map_app, enumerate_codes.
Qed.

Lemma label_map_keys_NoDup labels : NoDup (map fst (label_map a labels)).
Proof.
  rewrite label_map_keys. apply NoDup_app. split_and!.
  - apply np_unique_NoDup.
  - intros x Hx. case_decide; [by apply not_elem_of_nil|].
    intros ->%list_elem_of_singleton. done.
  - case_decide; [constructor|apply NoDup_singleton].
Qed.

Lemma label_map_codes_NoDup labels : NoDup (map snd (label_map a labels)).
Proof.
  rewrite label_map_codes. apply NoDup_app. split_and!.
  - apply (NoDup_fmap_2 Z.of_nat), NoDup_seq.
  - intros x Hx. case_decide; [by apply not_elem_of_nil|].
    intros ->%list_elem_of_singleton.
    apply list_elem_of_fmap in Hx as (n & Hn & _). lia.
  - case_decide; [constructor|apply NoDup_singleton].
Qed.

Lemma label_map_noise labels :
  exists code, (noise_label a, code) ∈ label_map a labels.
Proof.
  assert (noise_label a ∈ map fst (label_map a labels)) as Hin.
  { rewrite label_map_keys. case_decide; set_solver. }
  apply list_elem_of_fmap in Hin as ([n k] & Hn & Hin). simpl in Hn. subst n.
  by exists k.
Qed.

Lemma label_map_lookup labels u k :
  (u, k) ∈ label_map a labels -> items_lookup (label_map a labels) u = Some k.
Proof. apply items_lookup_elem, label_map_keys_NoDup. Qed.

Lemma label_map_injective labels u u' k :
  (u, k) ∈ label_map a labels -> (u', k) ∈ label_map a labels -> u = u'.
Proof.
  intros Hu Hu'.
  pose proof (label_map_codes_NoDup labels) as Hnd.
  apply list_elem_of_lookup in Hu as [i Hi].
  apply list_elem_of_lookup in Hu' as [j Hj].
  assert (i = j) as ->.
  { eapply NoDup_lookup; [exact Hnd| |].
    - rewrite list_lookup_fmap, Hi. done.
    - rewrite list_lookup_fmap, Hj. done. }
  congruence.
Qed.

Lemma label_unmap_lookup labels u k :
  (u, k) ∈ label_map a labels -> items_lookup (label_unmap a labels) k = Some u.
Proof.
  intros Hin. apply items_lookup_elem.
  - unfold label_unmap. rewrite map_map.
    erewrite map_ext; [apply label_map_codes_NoDup|]. by intros [].
  - unfold label_unmap. apply list_elem_of_fmap. by exists (u, k).
Qed.

(** The mask of a code is the mask of its label. *)
Lemma code_mask labels u k :
  (u, k) ∈ label_map a labels ->
  map (fun code => bool_decide (code = Some k)) (cluster_label_vector a labels)
  = mask_eq labels u.
Proof.
  intros Hin. unfold cluster_label_vector, mask_eq. rewrite map_map.
  apply map_ext_in. intros x Hx. apply list_elem_of_In in Hx.
  assert (x ∈ map fst (label_map a labels)) as Hkey.
  { rewrite label_map_keys, elem_of_app, elem_of_np_unique. by left. }
  apply list_elem_of_fmap in Hkey as ([x' kx] & Hx' & Hkey). simpl in Hx'.
  subst x'. rewrite (label_map_lookup _ _ _ Hkey).
  destruct (decide (x = u)) as [->|Hne].
  - rewrite (bool_decide_eq_true_2 (u = u)) by done.
    apply bool_decide_eq_true_2. f_equal.
    pose proof (label_map_keys_NoDup labels) as Hnd.
    pose proof (label_map_lookup _ _ _ Hin) as H1.
    pose proof (label_map_lookup _ _ _ Hkey) as H2. congruence.
  - rewrite (bool_decide_eq_false_2 (x = u)) by done.
    apply bool_decide_eq_false_2. intros [= ->].
    apply Hne. by eapply label_map_injective.
Qed.

End LabelCodes.

(** ** create_interactive_plot: painting the layers *)

Lemma filter_map_commute {A B} (f : A -> B) (P : B -> Prop)
    `{forall y, Decision (P y)} (l : list A) :
  filter P (map f l) = map f (filter (fun x => P (f x)) l).
Proof.
  induction l as [|x l IH]; [done|]. simpl. rewrite !filter_cons.
  case_decide; simpl; by rewrite IH.
Qed.

Lemma filter_ext_elem {A} (P Q : A -> Prop) `{forall x, Decision (P x)}
    `{forall x, Decision (Q x)} (l : list A) :
  (forall x, x ∈ l -> P x <-> Q x) -> filter P l = filter Q l.
Proof.
  induction l as [|x l IH]; intros Hpq; [done|]. rewrite !filter_cons.
  assert (filter P l = filter Q l) as ->.
  { apply IH. intros y Hy. apply Hpq. by right. }
  assert (P x <-> Q x) as Hx by (apply Hpq; by left).
  repeat case_decide; tauto.
Qed.

Section Painting.
Import CreateInteractivePlot.
Variable a : args.
Implicit Types (labels names : list string) (cv : list rgb).

Lemma painted_pairs_names labels :
  map fst (painted_pairs a labels)
  = filter (fun l => l <> noise_label a) (np_unique labels).
Proof.
  unfold painted_pairs.
  pose proof (filter_map_commute fst (fun l => l <> noise_label a)
                (label_map a labels)) as Hcomm.
  cbv beta in Hcomm. rewrite <- Hcomm.
  rewrite label_map_keys, filter_app.
  case_decide; [by rewrite app_nil_r|].
  rewrite filter_cons, decide_False by (intros Hn; by apply Hn).
  by rewrite app_nil_r.
Qed.

Lemma unique_non_noise_codes labels :
  unique_non_noise_labels a labels = Return (map snd (painted_pairs a labels)).
Proof.
  unfold unique_non_noise_labels. unfold_bind.
  destruct (label_map_noise a labels) as [code Hcode].
  unfold items_get. rewrite (label_map_lookup a labels _ _ Hcode).
  f_equal. unfold painted_pairs, label_unmap.
  rewrite map_map.
  rewrite (map_ext _ snd) by (by intros []).
  rewrite filter_map_commute. f_equal. cbv beta.
  apply filter_ext_elem. intros [u k] Hin. simpl. split.
  - intros Hk ->. apply Hk.
    pose proof (label_map_lookup a labels _ _ Hin).
    pose proof (label_map_lookup a labels _ _ Hcode). congruence.
  - intros Hu ->. apply Hu. by eapply label_map_injective.
Qed.

Lemma paint_pairs cm labels (ps : list (string * Z)) cv :
  (forall p, p ∈ ps -> p ∈ label_map a labels) ->
  paint a cm labels (map snd ps) cv = paint_names cm labels (map fst ps) cv.
Proof.
  revert cv. induction ps as [|[u k] ps IH]; intros cv Hps; [done|].
  simpl. unfold_bind.
  assert ((u, k) ∈ label_map a labels) as Huk by (apply Hps; by left).
  unfold items_get. rewrite (label_unmap_lookup a labels u k Huk).
  destruct (dict_get cm u) as [e|c]; [done|].
  rewrite (code_mask a labels u k Huk).
  destruct (mask_assign (mask_eq labels u) c cv) as [e|cv']; [done|].
  apply IH. intros p Hp. apply Hps. by right.
Qed.

(** Painting a layer by codes is painting it by labels: every unique
    non-noise label of the layer, in the order of [np.unique]. *)
Lemma paint_layer_names cm labels cv :
  paint_layer a cm labels cv
  = paint_names cm labels
      (filter (fun l => l <> noise_label a) (np_unique labels)) cv.
Proof.
  unfold paint_layer. unfold_bind. rewrite unique_non_noise_codes.
  rewrite paint_pairs.
  - by rewrite painted_pairs_names.
  - intros p Hp. unfold painted_pairs in Hp.
    by apply list_elem_of_filter in Hp as [_ Hp].
Qed.

End Painting.

Lemma mask_assign_Return_inv mask c cv cv' :
  mask_assign mask c cv = Return cv' ->
  length mask = length cv /\
  cv' = zip_with (fun (hit : bool) old => if hit then rgb_to_uint8 c else old)
                 mask cv.
Proof. unfold mask_assign. case_decide; naive_solver. Qed.

(** After the assignments of one layer, a point whose label is one of the
    painted names has the colour of its label, and any other point keeps
    its colour. *)
Lemma paint_names_lookup cm labels names cv cv' :
  paint_names cm labels names cv = Return cv' ->
  length cv' = length cv /\
  (names <> [] -> length labels = length cv) /\
  forall i, (i < length cv)%nat ->
    cv' !! i
    = match labels !! i with
      | Some l =>
          if decide (l ∈ names) then rgb_to_uint8 <$> cm !! l else cv !! i
      | None => cv !! i
      end.
Proof.
  revert cv. induction names as [|u names IH]; intros cv; simpl.
  - intros [= <-]. split_and!; [done|done|].
    intros i _. by destruct (labels !! i).
  - unfold dict_get. destruct (cm !! u) as [c|] eqn:Hu; [|done].
    destruct (mask_assign (mask_eq labels u) c cv) as [e|cv1] eqn:Hm; [done|].
    intros Hrest. apply mask_assign_Return_inv in Hm as [Hlen ->].
    unfold mask_eq in Hlen. rewrite length_map in Hlen.
    apply IH in Hrest as (Hlen' & _ & Hlook).
    rewrite length_zip_with in Hlen', Hlook.
    unfold mask_eq in Hlen', Hlook. rewrite length_map in Hlen', Hlook.
    split_and!; [lia|done|].
    intros i Hi. rewrite Hlook by lia.
    rewrite lookup_zip_with, list_lookup_fmap.
    destruct (labels !! i) as [l|] eqn:Hl; simpl.
    + destruct (lookup_lt_is_Some_2 cv i Hi) as [old Hold]. rewrite Hold. simpl.
      destruct (decide (l = u)) as [->|Hne].
      * rewrite bool_decide_eq_true_2 by done.
        rewrite (decide_True (P := u ∈ u :: names)) by (by left).
        case_decide; by rewrite ?Hu.
      * rewrite bool_decide_eq_false_2 by done.
        case_decide as Hin.
        -- rewrite decide_True; [done|by right].
        -- rewrite decide_False; [done|].
           intros [?|?]%elem_of_cons; done.
    + apply lookup_ge_None in Hl. lia.
Qed.

Lemma finest_label_app noise (l1 l2 : list (list string)) i :
  finest_label noise (l1 ++ l2) i
  = match finest_label noise l1 i with
    | Some l => Some l
    | None => finest_label noise l2 i
    end.
Proof.
  induction l1 as [|labels l1 IH]; [done|]. simpl.
  destruct (labels !! i) as [l|]; [case_decide|]; done.
Qed.

Section PaintingLayers.
Import CreateInteractivePlot.
Variable a : args.

Lemma paint_layer_lookup cm labels cv cv' :
  paint_layer a cm labels cv = Return cv' ->
  length cv' = length cv /\
  forall i, (i < length cv)%nat ->
    cv' !! i
    = match finest_label (noise_label a) [labels] i with
      | Some l => rgb_to_uint8 <$> cm !! l
      | None => cv !! i
      end.
Proof.
  rewrite paint_layer_names. intros Hp.
  apply paint_names_lookup in Hp as (Hlen & _ & Hlook).
  split; [done|]. intros i Hi. rewrite (Hlook i Hi). simpl.
  destruct (labels !! i) as [l|] eqn:Hl; [|done].
  assert (l ∈ labels) as Hin by by eapply list_elem_of_lookup_2.
  destruct (decide (l = noise_label a)) as [->|Hne].
  - rewrite decide_False; [done|].
    rewrite list_elem_of_filter. tauto.
  - rewrite decide_True; [done|].
    by rewrite list_elem_of_filter, elem_of_np_unique.
Qed.

(** After all layers are painted, coarsest first, a point has the colour of
    its label in the finest layer where it is not noise, and keeps its
    initial colour when it is noise in every layer. *)
Lemma paint_layers_lookup cm reversed_layers cv cv' :
  paint_layers a cm reversed_layers cv = Return cv' ->
  length cv' = length cv /\
  forall i, (i < length cv)%nat ->
    cv' !! i
    = match finest_label (noise_label a) (reverse reversed_layers) i with
      | Some l => rgb_to_uint8 <$> cm !! l
      | None => cv !! i
      end.
Proof.
  revert cv. induction reversed_layers as [|labels rest IH]; intros cv; simpl.
  - intros [= <-]. done.
  - unfold_bind.
    destruct (paint_layer a cm labels cv) as [e|cv1] eqn:Hl; [done|].
    intros Hrest. apply paint_layer_lookup in Hl as [Hlen1 Hlook1].
    apply IH in Hrest as [Hlen' Hlook']. split; [lia|].
    intros i Hi. rewrite Hlook' by lia.
    rewrite reverse_cons, finest_label_app.
    destruct (finest_label (noise_label a) (reverse rest) i); [done|].
    by apply Hlook1.
Qed.

End PaintingLayers.

(** ** create_interactive_plot: colours fit uint8 *)

Lemma Int_part_range (x : R) (lo hi : Z) :
  (IZR lo <= x <= IZR hi)%R -> (lo <= Int_part x <= hi)%Z.
Proof.
  intros [Hlo Hhi]. destruct (base_Int_part x) as [Hle Hgt]. split.
  - assert (IZR lo - 1 < IZR (Int_part x))%R as Hlt by lra.
    rewrite <- minus_IZR in Hlt. apply lt_IZR in Hlt. lia.
  - apply le_IZR. lra.
Qed.

Lemma py_int_range (x : R) :
  (0 <= x <= 255)%R -> (0 <= py_int x <= 255)%Z.
Proof.
  intros Hx. unfold py_int. destruct (Rle_dec 0 x) as [_|Hneg]; [|lra].
  by apply Int_part_range.
Qed.

Lemma py_int_IZR (z : Z) : py_int (IZR z) = z.
Proof.
  unfold py_int. destruct (Rle_dec 0 (IZR z)) as [Hpos|Hneg].
  - symmetry. apply Int_part_spec. split; lra.
  - rewrite <- opp_IZR.
    rewrite <- (Int_part_spec (IZR (- z)) (- z)) by (split; lra). lia.
Qed.

Lemma to_uint8_small z : (0 <= z <= 255)%Z -> to_uint8 z = z.
Proof. intros Hz. unfold to_uint8. apply Z.mod_small. lia. Qed.

Lemma rgb_to_uint8_in_range c : rgb_in_range c -> rgb_to_uint8 c = c.
Proof.
  destruct c as [[r g] b]. intros (Hr & Hg & Hb). unfold rgb_to_uint8. simpl in *.
  by rewrite !to_uint8_small.
Qed.

Lemma dict_of_pairs_lookup_elem {V} (kvs : list (string * V)) k v :
  dict_of_pairs kvs !! k = Some v -> (k, v) ∈ kvs.
Proof.
  induction kvs as [|[k' v'] kvs IH] using rev_ind.
  - unfold dict_of_pairs. simpl. by rewrite lookup_empty.
  - rewrite dict_of_pairs_snoc. rewrite elem_of_app.
    destruct (decide (k = k')) as [->|Hne].
    + rewrite lookup_insert_eq. intros [= ->]. right. by left.
    + rewrite lookup_insert_ne by done. intros Hl. left. by apply IH.
Qed.

Section InteractiveColors.
Import CreateInteractivePlot.
Context `{PaletteHandling} `{Textwrap} `{Matplotlib} `{InteractiveRendering}.
Implicit Types (a : args).

Lemma rgb255_range color c : rgb255 color = Return c -> rgb_in_range c.
Proof.
  unfold rgb255. unfold_bind.
  destruct (to_rgb color) as [msg|[[r g] b]] eqn:Hrgb; [done|]. simpl.
  intros [= <-]. apply to_rgb_range in Hrgb as (Hr & Hg & Hb).
  unfold rgb_in_range. simpl.
  split_and!; apply py_int_range; lra.
Qed.

Lemma traverse_rgb255_range colors cs :
  traverse rgb255 colors = Return cs -> Forall rgb_in_range cs.
Proof.
  intros Ht. apply traverse_Return_inv in Ht.
  induction Ht as [|color c colors cs Hc _ IH]; constructor; [|done].
  by eapply rgb255_range.
Qed.

(** Every colour of the colour map fits a uint8 array. *)
Lemma color_step_range a rows color_map text_palette :
  color_step a rows = Return (color_map, text_palette) ->
  forall l c, color_map !! l = Some c -> rgb_in_range c.
Proof.
  unfold color_step. unfold_bind. intros Hstep l c Hl.
  destruct (label_color_map a) as [m|].
  - destruct (traverse _ (map_to_list m)) as [e|entries] eqn:He; [done|].
    destruct (traverse _ rows) as [e|colors]; [done|].
    destruct (traverse rgb255 _) as [e|tp]; [done|].
    injection Hstep as <- <-.
    apply dict_of_pairs_lookup_elem in Hl.
    apply traverse_Return_inv in He.
    apply list_elem_of_lookup in Hl as [i Hi].
    destruct (Forall2_lookup_r _ _ _ _ _ He Hi) as ([label color] & _ & Hc).
    unfold_bind. destruct (rgb255 color) as [e|c'] eqn:Hrgb; [done|].
    injection Hc as <- <-. by eapply rgb255_range.
  - destruct (traverse rgb255 (text_variant a _)) as [e|tp]; [done|].
    destruct (traverse rgb255 (generate_palette a rows)) as [e|palette] eqn:Hp;
      [done|].
    injection Hstep as <- <-.
    apply dict_of_pairs_lookup_elem in Hl.
    apply traverse_rgb255_range in Hp.
    apply elem_of_zip_r in Hl. by eapply Forall_forall in Hp.
Qed.

End InteractiveColors.

(** ** create_interactive_plot: the call of render_html *)

Section InteractiveCall.
Import CreateInteractivePlot.
Context `{PaletteHandling} `{Textwrap} `{Matplotlib} `{InteractiveRendering}.
Implicit Types (a : args).

Lemma columns_Return_inv (array : list rgb) rs gs bs :
  columns array = Return (rs, gs, bs) ->
  array <> [] /\
  rs = map (fun c => c.1.1) array /\
  gs = map (fun c => c.1.2) array /\
  bs = map (fun c => c.2) array.
Proof. destruct array; [done|]. intros [= <- <- <-]. done. Qed.

Lemma check_column_length_Return_inv {A} n (values : list A) u :
  check_column_length n values = Return u -> length values = n.
Proof. unfold check_column_length. by case_decide. Qed.

(** What a call that reaches [render_html] went through. *)
Lemma render_html_call_Return_inv a c :
  render_html_call a = Return c ->
  exists rows color_map text_palette label_dataframe points,
    label_rows a = Return rows /\
    color_step a rows = Return (color_map, text_palette) /\
    colored_label_rows a rows text_palette = Return label_dataframe /\
    point_dataframe a color_map = Return points /\
    c = {|
      RenderHtml.point_dataframe := points;
      RenderHtml.label_dataframe := label_dataframe;
      RenderHtml.inline_data := inline_data a;
      RenderHtml.color_label_text := color_label_text a;
      RenderHtml.darkmode := darkmode a;
      RenderHtml.kwds := render_html_kwds a
    |}.
Proof.
  unfold render_html_call. unfold_bind.
  destruct (label_rows a) as [e|rows] eqn:Hrows; [done|].
  destruct (color_step a rows) as [e|[color_map text_palette]] eqn:Hstep;
    [done|].
  destruct (colored_label_rows a rows text_palette) as [e|ldf] eqn:Hldf; [done|].
  destruct (point_dataframe a color_map) as [e|points] eqn:Hp; [done|].
  intros [= <-]. by exists rows, color_map, text_palette, ldf, points.
Qed.

(** The colour columns of the point dataframe are the colour vector. *)
Lemma point_dataframe_Return_inv a color_map points :
  point_dataframe a color_map = Return points ->
  exists cv,
    color_vector a color_map = Return cv /\
    length cv = length (data_map_coords a) /\
    forall i, marker_color points i
              = (fun c => rgb_to_uint8 c) <$> cv !! i.
Proof.
  unfold point_dataframe. unfold_bind. cbv zeta.
  destruct (match hover_text a with Some _ => _ | None => _ end); [done|].
  destruct (match marker_size_array a with Some _ => _ | None => _ end);
    [done|].
  destruct (color_vector a color_map) as [e|cv] eqn:Hcv; [done|].
  destruct (columns cv) as [e|[[rs gs] bs]] eqn:Hcols; [done|].
  destruct (check_column_length _ rs) as [e|u] eqn:Hlen; [done|].
  intros [= <-]. exists cv.
  apply columns_Return_inv in Hcols as (_ & -> & -> & ->).
  apply check_column_length_Return_inv in Hlen. rewrite length_map in Hlen.
  split_and!; [done|done|].
  intros i. unfold marker_color. simpl. rewrite !list_lookup_fmap.
  unfold rgb in *. destruct (cv !! i) as [[[r g] b]|]; reflexivity.
Qed.

Lemma color_vector_painted a color_map cv :
  marker_color_array a = None ->
  color_vector a color_map = Return cv ->
  exists noise,
    rgb255 (noise_color a) = Return noise /\
    length cv = length (data_map_coords a) /\
    forall i, (i < length (data_map_coords a))%nat ->
      cv !! i
      = match finest_label (noise_label a) (label_layers a) i with
        | Some l => rgb_to_uint8 <$> color_map !! l
        | None => Some (rgb_to_uint8 noise)
        end.
Proof.
  intros Hnone. unfold color_vector. rewrite Hnone. unfold_bind.
  destruct (rgb255 (noise_color a)) as [e|noise] eqn:Hnoise; [done|].
  intros Hp. apply paint_layers_lookup in Hp as [Hlen Hlook].
  rewrite length_replicate in Hlen, Hlook. rewrite reverse_involutive in Hlook.
  exists noise. split_and!; [done|done|].
  intros i Hi. rewrite (Hlook i Hi).
  destruct (finest_label _ _ i); [done|].
  by apply lookup_replicate_2.
Qed.

End InteractiveCall.

(** ** Where exceptions come from *)

Section LibraryLevel.
Context {A B : Type}.

Lemma lib_Return (x : A) : raises_library_level (Return x).
Proof. by intros e. Qed.

Lemma lib_Raise (e : exn) :
  library_level e = true -> raises_library_level (@Raise A e).
Proof. intros He e'. by intros [= <-]. Qed.

Lemma lib_bind (m : result A) (k : A -> result B) :
  raises_library_level m -> (forall x, raises_library_level (k x)) ->
  raises_library_level (m ≫= k).
Proof.
  intros Hm Hk e. unfold_bind. destruct m as [e'|x]; [|by apply Hk].
  intros [= <-]. by apply Hm.
Qed.

Lemma lib_traverse (f : A -> result B) l :
  (forall x, raises_library_level (f x)) ->
  raises_library_level (traverse f l).
Proof.
  intros Hf e He. apply traverse_Raise_inv in He as (x & _ & Hx).
  by eapply Hf.
Qed.

Lemma lib_call_helper name (o : outcome A) :
  raises_library_level (call_helper name o).
Proof. intros e. destruct o; [|done]. by intros [= <-]. Qed.

Lemma lib_dict_get (d : gmap string A) k : raises_library_level (dict_get d k).
Proof. intros e. unfold dict_get. destruct (d !! k); [done|]. by intros [= <-]. Qed.

Lemma lib_seq_get (l : list A) i : raises_library_level (seq_get l i).
Proof. intros e. unfold seq_get. destruct (l !! i); [done|]. by intros [= <-]. Qed.

Lemma lib_bool_index (rows : list A) mask :
  raises_library_level (bool_index rows mask).
Proof. intros e. unfold bool_index. case_decide; [done|]. by intros [= <-]. Qed.

Lemma lib_items_get `{EqDecision K} (items : list (K * A)) k :
  raises_library_level (items_get items k).
Proof.
  intros e. unfold items_get. destruct (items_lookup items k); [done|].
  by intros [= <-].
Qed.

Lemma lib_check_column_length n (values : list A) :
  raises_library_level (check_column_length n values).
Proof.
  intros e. unfold check_column_length. case_decide; [done|]. by intros [= <-].
Qed.

End LibraryLevel.

Lemma lib_mask_assign mask c cv : raises_library_level (mask_assign mask c cv).
Proof. intros e. unfold mask_assign. case_decide; [done|]. by intros [= <-]. Qed.

Lemma lib_columns array : raises_library_level (columns array).
Proof. intros e. destruct array; [|done]. by intros [= <-]. Qed.

Create HintDb lib discriminated.
#[export] Hint Resolve lib_Return lib_bind lib_traverse lib_call_helper
  lib_dict_get lib_seq_get lib_bool_index lib_items_get lib_check_column_length
  lib_mask_assign lib_columns : lib.

(** Walks through binds, comprehensions and branches down to the
    operations that can raise. *)
Ltac solve_lib :=
  repeat first
    [ progress intros
    | apply lib_bind
    | apply lib_traverse
    | apply lib_Return
    | apply lib_Raise; reflexivity
    | solve [auto with lib]
    | match goal with
      | |- raises_library_level (match ?x with _ => _ end) => destruct x
      | |- raises_library_level (if ?b then _ else _) => destruct b
      | |- raises_library_level (let '(_, _) := ?p in _) => destruct p
      | |- raises_library_level (mret _) => apply lib_Return
      end ].

Lemma traverse_Raise_first {A B} (f : A -> result B) x l e :
  f x = Raise e -> traverse f (x :: l) = Raise e.
Proof. intros Hx. simpl. by rewrite Hx. Qed.

Lemma traverse_Raise_uniform {A B} (f : A -> result B) l x e :
  (forall y, y ∈ l -> (exists z, f y = Return z) \/ f y = Raise e) ->
  x ∈ l -> f x = Raise e -> traverse f l = Raise e.
Proof.
  intros Hall Hin Hx.
  destruct (traverse f l) as [e'|ys] eqn:Ht.
  - apply traverse_Raise_inv in Ht as (y & Hy & Hfy).
    destruct (Hall y Hy) as [[z Hz]|He]; congruence.
  - apply traverse_Return_inv in Ht.
    apply list_elem_of_lookup in Hin as [i Hi].
    destruct (Forall2_lookup_l _ _ _ _ _ Ht Hi) as (z & _ & Hz). congruence.
Qed.

Section CreatePlotRaises.
Import CreatePlot.
Context `{PaletteHandling} `{Medoids} `{Textwrap} `{PlotRendering}.
Implicit Types (a : args).

Lemma lib_create_plot a : raises_library_level (create_plot a).
Proof.
  unfold create_plot, render_plot_call, label_locations, cluster_rows,
    color_step, auto_color_list, auto_label_color_map, palette_color,
    given_color_list, label_colors, label_size_adjustments,
    dynamic_adjustments, bind_keywords.
  cbv zeta. solve_lib.
Qed.

(** A given colour map without an observed non-noise label: KeyError. *)
Lemma create_plot_KeyError a m l :
  label_color_map a = Some m ->
  length (labels a) = length (data_map_coords a) ->
  l ∈ labels a -> l <> noise_label a -> m !! l = None ->
  create_plot a = Raise (Exn KeyError Dict).
Proof.
  intros Hmap Hlen Hin Hne Hl.
  unfold create_plot, render_plot_call. unfold_bind.
  rewrite (label_locations_ok a Hlen).
  unfold color_step. rewrite Hmap. unfold_bind.
  unfold given_color_list, cluster_label_vector.
  rewrite (traverse_Raise_uniform _ (labels a) l (Exn KeyError Dict)); [done| |done|].
  - intros y _. case_decide; [|by eauto].
    unfold dict_get. destruct (m !! y); by eauto.
  - rewrite decide_True by done. unfold dict_get. by rewrite Hl.
Qed.

(** Fewer or more labels than points, with a cluster to locate:
    IndexError. *)
Lemma create_plot_IndexError a :
  unique_non_noise_labels a <> [] ->
  length (labels a) <> length (data_map_coords a) ->
  create_plot a = Raise (Exn IndexError Numpy).
Proof.
  intros Hne Hlen.
  assert (label_locations a = Raise (Exn IndexError Numpy)) as Hloc.
  { unfold label_locations.
    destruct (unique_non_noise_labels a) as [|l U]; [done|].
    assert (cluster_rows a l = Raise (Exn IndexError Numpy)) as Hr.
    { unfold cluster_rows, bool_index, mask_eq, cluster_label_vector.
      rewrite length_map. by rewrite decide_False. }
    destruct (use_medoids a); apply traverse_Raise_first;
      unfold_bind; by rewrite Hr. }
  unfold create_plot, render_plot_call. unfold_bind. by rewrite Hloc.
Qed.

Lemma create_plot_Return_iff a fa :
  create_plot a = Return fa <->
  exists c, render_plot_call a = Return c /\ render_plot c = Gave fa.
Proof.
  unfold create_plot. unfold_bind.
  destruct (render_plot_call a) as [e|c].
  - split; [done|]. by intros (c & ? & _).
  - destruct (render_plot c) as [msg|[fig ax]] eqn:Hr; simpl.
    + split; [done|]. intros (c' & [= <-] & Hg). congruence.
    + split.
      * intros [= <-]. by exists c.
      * intros (c' & [= <-] & Hg). congruence.
Qed.

End CreatePlotRaises.

Section InteractiveRaises.
Import CreateInteractivePlot.
Context `{PaletteHandling} `{Textwrap} `{Matplotlib} `{InteractiveRendering}.
Implicit Types (a : args).

Lemma lib_paint a cm labels codes cv :
  raises_library_level (paint a cm labels codes cv).
Proof.
  revert cv. induction codes as [|k codes IH]; intros cv; simpl; solve_lib.
Qed.

Lemma lib_paint_layers a cm layers cv :
  raises_library_level (paint_layers a cm layers cv).
Proof.
  revert cv. induction layers as [|labels layers IH]; intros cv; simpl;
    [solve_lib|].
  apply lib_bind; [|done]. unfold paint_layer, unique_non_noise_labels.
  solve_lib. apply lib_paint.
Qed.

Lemma lib_create_interactive_plot a :
  raises_library_level (create_interactive_plot a).
Proof.
  unfold create_interactive_plot, render_html_call, label_rows, color_step,
    colored_label_rows, point_dataframe, color_vector, rgb255.
  cbv zeta. solve_lib; try apply lib_paint_layers.
Qed.

Lemma create_interactive_plot_no_layers a :
  label_layers a = [] -> create_interactive_plot a = Return None.
Proof. intros Hl. unfold create_interactive_plot. by rewrite Hl. Qed.

Lemma create_interactive_plot_Return_iff a r :
  label_layers a <> [] ->
  create_interactive_plot a = Return r <->
  exists c html,
    render_html_call a = Return c /\ render_html c = Gave html /\
    r = Some {| InteractiveFigure.html_str := html;
                InteractiveFigure.width := width a;
                InteractiveFigure.height := height a |}.
Proof.
  intros Hl. unfold create_interactive_plot.
  rewrite decide_False by (by destruct (label_layers a)).
  unfold_bind. destruct (render_html_call a) as [e|c].
  - split; [done|]. by intros (c & ? & ? & _).
  - destruct (render_html c) as [msg|html] eqn:Hr; simpl.
    + split; [done|]. intros (c' & html & [= <-] & Hg & _). congruence.
    + split.
      * intros [= <-]. by exists c, html.
      * intros (c' & html' & [= <-] & Hg & ->). congruence.
Qed.

End InteractiveRaises.

(** ** Worked calls *)

Section WorkedCalls.
Import Sample.

Example np_unique_four_labels :
  np_unique four_labels = ["Unlabelled"; "a"; "b"].
Proof. reflexivity. Qed.

Example unique_non_noise_four_labels :
  CreatePlot.unique_non_noise_labels (plot_defaults four_points four_labels)
  = ["a"; "b"].
Proof. reflexivity. Qed.

(** The anchors of the four-point call: cluster "a" is the single point
    (9, 9), cluster "b" has the mean of (0, 0) and (2, 4). *)
Example label_locations_four_points :
  CreatePlot.label_locations (plot_defaults four_points four_labels)
  = Return [(9, 9); (1, 2)]%R.
Proof.
  rewrite label_locations_ok by reflexivity.
  change (Return [mean_axis0 [(9, 9)%R]; mean_axis0 [(0, 0); (2, 4)]%R]
          = Return [(9, 9); (1, 2)]%R).
  unfold mean_axis0, Rsum. simpl.
  repeat f_equal; lra.
Qed.

(** With one point the raw factor is 128, clamped to 64, and alpha is 1. *)
Example magic_number_one_point (p : point) :
  CreatePlot.magic_number (plot_defaults [p] ["a"]) = 64%R /\
  CreatePlot.heuristic_alpha (plot_defaults [p] ["a"]) = PyFloat 1.
Proof.
  assert (CreatePlot.magic_number (plot_defaults [p] ["a"]) = 64%R) as Hm.
  { unfold CreatePlot.magic_number, CreatePlot.n_points, np_log10.
    change (IZR (Z.of_nat (length (CreatePlot.data_map_coords
              (plot_defaults [p] ["a"]))))) with 1%R.
    rewrite ln_1. replace (- (0 / ln 10))%R with 0%R by (unfold Rdiv; lra).
    rewrite Rpower_O by lra.
    unfold np_clip, Rmin, Rmax. repeat destruct (Rle_dec _ _); lra. }
  split; [done|].
  unfold CreatePlot.heuristic_alpha. simpl. rewrite Hm. f_equal.
  unfold np_clip, Rmin, Rmax. repeat destruct (Rle_dec _ _); lra.
Qed.

(** With 100000 points and no [force_matplotlib] the datashader branch is
    taken: alpha is 1.0 and the point size is an integer. *)
Example datashader_branch_100000 (p : point) :
  let a := plot_defaults (replicate (Z.to_nat 100000) p) [] in
  CreatePlot.matplotlib_branch a = false /\
  CreatePlot.heuristic_alpha a = PyFloat 1 /\
  exists size, CreatePlot.heuristic_point_size a = PyInt size.
Proof.
  intros a.
  assert (CreatePlot.matplotlib_branch a = false) as Hb.
  { unfold CreatePlot.matplotlib_branch, CreatePlot.n_points, a.
    change (CreatePlot.data_map_coords (plot_defaults _ _))
      with (replicate (Z.to_nat 100000) p).
    rewrite length_replicate, Z2Nat.id by lia. reflexivity. }
  split_and!; [done| |].
  - unfold CreatePlot.heuristic_alpha. by rewrite Hb.
  - unfold CreatePlot.heuristic_point_size. rewrite Hb. by eexists.
Qed.

(** The colours of the four-point call: "a" and "b" take the first two
    palette entries, the unlabelled point the noise colour. *)
Example color_step_four_points :
  exists m,
    CreatePlot.color_step (plot_defaults four_points four_labels)
      [(9, 9); (1, 2)]%R
    = Return (["#00ff00"; "#00ff00"; "#999999"; "#ff0000"], m) /\
    m !! "a" = Some "#ff0000" /\ m !! "b" = Some "#00ff00" /\
    m !! "Unlabelled" = Some "#999999" /\ m !! "c" = None.
Proof. eexists. split_and!; reflexivity. Qed.

(** The integer codes of the two layers: noise is given the code -1 in a
    layer where it does not occur. *)
Example label_map_two_layers :
  let a := interactive_call three_points two_layers None None in
  CreateInteractivePlot.label_map a ["a"; "Unlabelled"; "Unlabelled"]
  = [("Unlabelled", 0%Z); ("a", 1%Z)] /\
  CreateInteractivePlot.label_map a ["A"; "A"; "B"]
  = [("A", 0%Z); ("B", 1%Z); ("Unlabelled", (-1)%Z)] /\
  CreateInteractivePlot.unique_non_noise_labels a ["A"; "A"; "B"]
  = Return [0%Z; 1%Z].
Proof. intros a. split_and!; reflexivity. Qed.

(** The finest label of each of the three points. *)
Example finest_label_two_layers :
  map (finest_label "Unlabelled" two_layers) [0; 1; 2]%nat
  = [Some "a"; Some "A"; None].
Proof. reflexivity. Qed.

End WorkedCalls.

(** ** Claims about create_plot *)

Section CreatePlotClaims.
Import CreatePlot.
Context `{PaletteHandling} `{Medoids} `{Textwrap} `{PlotRendering}.
Implicit Types (a : args).

(** C1.  In a call of [create_plot] with at least one non-noise label, the
    anchors are computed per unique non-noise label, taken in the sorted
    order of [np.unique]: the labels are strictly increasing and are exactly
    the labels of the vector other than [noise_label]; the anchor of a label
    is [anchor_of], the coordinate-wise mean of the rows of [data_map_coords]
    whose label is that label when [use_medoids] is False and their medoid
    when it is True; with as many labels as points the anchors are computed,
    and whenever the call reaches [render_plot] they are the
    [label_locations] it passes; points labelled [noise_label] contribute to
    no anchor: moving them changes none. *)
Theorem create_plot_label_anchors a :
  unique_non_noise_labels a <> [] ->
  let U := unique_non_noise_labels a in
  StronglySorted string_lt U /\
  (forall l, l ∈ U <-> l ∈ labels a /\ l <> noise_label a) /\
  (forall l,
     anchor_of a l
     = if use_medoids a
       then medoid (rows_with_label (data_map_coords a) (labels a) l)
       else mean_axis0 (rows_with_label (data_map_coords a) (labels a) l)) /\
  (length (labels a) = length (data_map_coords a) ->
   label_locations a = Return (map (anchor_of a) U)) /\
  (forall c, render_plot_call a = Return c ->
     RenderPlot.label_locations c = map (anchor_of a) U) /\
  (forall a',
     labels a' = labels a -> noise_label a' = noise_label a ->
     use_medoids a' = use_medoids a ->
     agree_off_noise (noise_label a) (labels a)
       (data_map_coords a) (data_map_coords a') ->
     map (anchor_of a') (unique_non_noise_labels a') = map (anchor_of a) U).
Proof.
  intros _ U. subst U. split_and!.
  - apply unique_non_noise_labels_sorted.
  - apply elem_of_unique_non_noise_labels.
  - intros l. unfold anchor_of. by destruct (use_medoids a).
  - apply label_locations_ok.
  - intros c Hc.
    apply render_plot_call_Return_inv in Hc
      as (locations & ? & ? & ? & ? & Hloc & _ & _ & _ & _ & ->).
    simpl. by apply label_locations_Return_inv in Hloc as [-> _].
  - intros a' Hl Hn Hm Hag.
    unfold unique_non_noise_labels, cluster_label_vector. rewrite Hl, Hn.
    apply map_ext_in. intros l Hin. apply list_elem_of_In in Hin.
    apply list_elem_of_filter in Hin as [Hne _].
    by apply anchor_of_agree.
Qed.

(** C2.  In a call of [create_plot] with [label_color_map=None] that gets
    past the anchors, the colour step returns a colour list and a colour
    map such that: the keys of the map are exactly the values of the label
    vector; the unique non-noise label at position [i] of the sorted unique
    non-noise labels has the palette's entry [i] as its one colour;
    [noise_label], when it occurs, has [noise_color]; and the colour list has
    one entry per sample, the colour of the sample's cluster for a non-noise
    sample and [noise_color] for a noise sample.  This colour list is the
    one passed to [render_plot] unless a [marker_color_array] replaces it. *)
Theorem create_plot_auto_color_map a locations :
  label_color_map a = None ->
  label_locations a = Return locations ->
  let palette := generate_palette a locations in
  exists colors m,
    color_step a locations = Return (colors, m) /\
    dom m = list_to_set (labels a) /\
    (forall i l, unique_non_noise_labels a !! i = Some l ->
       exists c, palette !! i = Some c /\ m !! l = Some c) /\
    (noise_label a ∈ labels a -> m !! noise_label a = Some (noise_color a)) /\
    length colors = length (labels a) /\
    (forall j l, labels a !! j = Some l ->
       colors !! j
       = if decide (l = noise_label a) then Some (noise_color a) else m !! l) /\
    (forall c, render_plot_call a = Return c ->
       RenderPlot.color_list c
       = match marker_color_array a with
         | Some given => given
         | None => colors
         end).
Proof.
  intros Hnone Hloc palette.
  assert (length (unique_non_noise_labels a) <= length palette) as Hlen.
  { apply label_locations_Return_inv in Hloc as [-> _].
    unfold palette. by rewrite generate_palette_length, length_map. }
  eexists _, _. split.
  { unfold color_step. rewrite Hnone. fold palette. unfold_bind.
    rewrite auto_color_list_ok, auto_label_color_map_ok by done. done. }
  assert (forall i l, unique_non_noise_labels a !! i = Some l ->
            exists c, palette !! i = Some c /\ assigned_color a palette l = c)
    as Hassigned.
  { intros i l Hi. unfold assigned_color.
    rewrite (label_to_index_map_lookup a i l Hi).
    destruct (palette !! i) as [c|] eqn:Hp; [by exists c|].
    apply lookup_ge_None in Hp. apply lookup_lt_Some in Hi. lia. }
  split_and!.
  - apply set_eq. intros x.
    rewrite elem_of_dom, auto_map_lookup, elem_of_list_to_set.
    case_decide; [by split; eauto|]. split; [by intros [? ?]|done].
  - intros i l Hi. destruct (Hassigned i l Hi) as (c & Hc & Hac).
    exists c. split; [done|]. rewrite auto_map_lookup.
    apply list_elem_of_lookup_2, elem_of_unique_non_noise_labels in Hi as [Hin _].
    rewrite decide_True by done. by rewrite Hac.
  - intros Hin. rewrite auto_map_lookup, decide_True by done.
    unfold assigned_color. by rewrite label_to_index_map_noise.
  - by rewrite length_map.
  - intros j l Hj. rewrite list_lookup_fmap, Hj. simpl.
    case_decide as Hn.
    + subst l. unfold assigned_color. by rewrite label_to_index_map_noise.
    + rewrite auto_map_lookup, decide_True; [done|].
      by eapply list_elem_of_lookup_2.
  - intros c Hc.
    apply render_plot_call_Return_inv in Hc
      as (locations' & colors' & m' & ? & ? & Hloc' & Hstep' & _ & _ & _ & ->).
    simpl. rewrite Hloc in Hloc'. injection Hloc' as <-.
    unfold color_step in Hstep'. rewrite Hnone in Hstep'. fold palette in Hstep'.
    unfold_bind.
    rewrite auto_color_list_ok, auto_label_color_map_ok in Hstep' by done.
    by injection Hstep' as <- <-.
Qed.

End CreatePlotClaims.

Section CreatePlotClaims2.
Import CreatePlot.
Context `{PaletteHandling} `{Medoids} `{Textwrap} `{PlotRendering}.
Implicit Types (a : args).


(** C10.  A [point_size] given in [render_plot_kwds] is the value computed
    for the call whatever the heuristic gives, it is the value passed to
    [render_plot], and the key is not among the keywords forwarded; the same
    holds for [alpha]; every other keyword is forwarded unchanged. *)
Theorem create_plot_given_point_size_alpha a :
  (forall v, render_plot_kwds a !! "point_size" = Some v ->
     point_size a = v /\
     forall c, render_plot_call a = Return c ->
       RenderPlot.point_size c = v /\
       RenderPlot.kwds c !! "point_size" = None) /\
  (forall v, render_plot_kwds a !! "alpha" = Some v ->
     alpha a = v /\
     forall c, render_plot_call a = Return c ->
       RenderPlot.alpha c = v /\
       RenderPlot.kwds c !! "alpha" = None) /\
  (forall c k, render_plot_call a = Return c ->
     k <> "point_size" -> k <> "alpha" ->
     RenderPlot.kwds c !! k = render_plot_kwds a !! k).
Proof.
  split_and!.
  - intros v Hv. unfold point_size. rewrite Hv. split; [done|].
    intros c Hc.
    apply render_plot_call_Return_inv in Hc
      as (? & ? & ? & ? & ? & _ & _ & _ & _ & _ & ->).
    simpl. unfold point_size, forwarded_kwds. rewrite Hv. split; [done|].
    rewrite lookup_delete_ne by done. apply lookup_delete_eq.
  - intros v Hv. unfold alpha. rewrite Hv. split; [done|].
    intros c Hc.
    apply render_plot_call_Return_inv in Hc
      as (? & ? & ? & ? & ? & _ & _ & _ & _ & _ & ->).
    simpl. unfold alpha, forwarded_kwds. rewrite Hv. split; [done|].
    apply lookup_delete_eq.
  - intros c k Hc Hk1 Hk2.
    apply render_plot_call_Return_inv in Hc
      as (? & ? & ? & ? & ? & _ & _ & _ & _ & _ & ->).
    simpl. unfold forwarded_kwds. by rewrite !lookup_delete_ne.
Qed.

End CreatePlotClaims2.

Section CreatePlotClaims3.
Import CreatePlot.
Context `{PaletteHandling} `{Medoids} `{Textwrap} `{PlotRendering}.
Implicit Types (a : args).

(** C5, as amended.  The palette step of [create_plot] is a function of the
    point positions, the anchor positions, the two hue parameters and the
    colour map object: two calls that agree on them get the same palette.
    When the two calls also agree on the labels, on [noise_label] and on
    [noise_color], the whole colour step with [label_color_map=None] gives
    the same colour list and the same colour map. *)
Theorem create_plot_palette_deterministic a a' locations locations' :
  data_map_coords a = data_map_coords a' ->
  locations = locations' ->
  palette_hue_shift a = palette_hue_shift a' ->
  palette_hue_radius_dependence a = palette_hue_radius_dependence a' ->
  cmap a = cmap a' ->
  generate_palette a locations = generate_palette a' locations' /\
  (label_color_map a = None -> label_color_map a' = None ->
   labels a = labels a' -> noise_label a = noise_label a' ->
   noise_color a = noise_color a' ->
   color_step a locations = color_step a' locations').
Proof.
  intros Hc <- Hs Hr Hm.
  assert (generate_palette a locations = generate_palette a' locations) as Hpal.
  { unfold generate_palette. by rewrite Hc, Hs, Hr, Hm. }
  split; [done|].
  intros Hn Hn' Hl Hnl Hnc.
  unfold color_step, auto_color_list, auto_label_color_map, palette_color,
    label_to_index_map, unique_non_noise_labels, cluster_label_vector.
  by rewrite Hn, Hn', Hpal, Hl, Hnl, Hnc.
Qed.

(** C6.  In a call of [create_plot] that reaches [render_plot], let the base
    colours be the colours the colour map gives the unique non-noise labels,
    in their order.  With [color_label_text=True] the text colours passed
    are a variant computed from the base colour list alone:
    [deep_palette] of it when [darkmode] is False, [pastel_palette] of it
    when [darkmode] is True; with [color_label_text=False] the argument
    passed is [None]. *)
Theorem create_plot_label_text_colors a c :
  render_plot_call a = Return c ->
  exists locations colors m base,
    label_locations a = Return locations /\
    color_step a locations = Return (colors, m) /\
    Forall2 (fun l col => m !! l = Some col) (unique_non_noise_labels a) base /\
    RenderPlot.label_text_colors c
    = if color_label_text a
      then Some (if darkmode a then pastel_palette base else deep_palette base)
      else None.
Proof.
  intros Hc.
  apply render_plot_call_Return_inv in Hc
    as (locations & colors & m & base & ? & Hloc & Hstep & Hbase & _ & _ & ->).
  exists locations, colors, m, base. split_and!; try done.
  - by apply label_colors_Return_inv.
  - simpl. unfold label_text_colors.
    destruct (color_label_text a), (darkmode a); done.
Qed.


End CreatePlotClaims3.
Section CreatePlotWitnesses.
Import Sample.

Lemma create_plot_label_anchors_witness :
  let a := plot_defaults four_points four_labels in
  CreatePlot.label_locations a
  = Return (map (anchor_of a) (CreatePlot.unique_non_noise_labels a)).
Proof.
  intros a.
  refine (proj1 (proj2 (proj2 (proj2 (create_plot_label_anchors a _)))) _).
  - discriminate.
  - reflexivity.
Defined.

Lemma create_plot_auto_color_map_witness :
  let a := plot_defaults four_points four_labels in
  let locations := map (anchor_of a) (CreatePlot.unique_non_noise_labels a) in
  exists colors m,
    CreatePlot.color_step a locations = Return (colors, m) /\
    dom m = list_to_set (CreatePlot.labels a) /\
    length colors = length (CreatePlot.labels a).
Proof.
  intros a locations.
  destruct (create_plot_auto_color_map a locations eq_refl eq_refl)
    as (colors & m & Hstep & Hdom & _ & _ & Hlen & _ & _).
  by exists colors, m.
Defined.

Lemma plot_defaults_reach noise_color darkmode :
  reaches_render_plot
    (plot_call four_points four_labels noise_color None false darkmode ∅).
Proof.
  split_and!; [reflexivity|discriminate|discriminate|].
  repeat constructor.
Qed.


Lemma create_plot_given_point_size_alpha_witness :
  let kwds : gmap string pyval :=
    <["point_size" := PyFloat 3]> (<["alpha" := PyFloat 0.5]> ∅) in
  let a := plot_call four_points four_labels "#999999" None false false kwds in
  exists c,
    CreatePlot.render_plot_call a = Return c /\
    RenderPlot.point_size c = PyFloat 3 /\
    RenderPlot.alpha c = PyFloat 0.5 /\
    RenderPlot.kwds c !! "point_size" = None /\
    RenderPlot.kwds c !! "alpha" = None.
Proof.
  intros kwds a.
  destruct (render_plot_call_total a) as [c Hc].
  { split_and!; [reflexivity|discriminate|discriminate|].
    repeat constructor. }
  destruct (create_plot_given_point_size_alpha a) as (Hps & Hal & _).
  destruct (Hps (PyFloat 3) eq_refl) as [_ Hps'].
  destruct (Hal (PyFloat 0.5) eq_refl) as [_ Hal'].
  destruct (Hps' c Hc) as [? ?]. destruct (Hal' c Hc) as [? ?].
  by exists c.
Defined.

Lemma create_plot_palette_deterministic_witness :
  let a := plot_defaults four_points four_labels in
  let a' := plot_call four_points four_labels "#999999" None false true ∅ in
  let locations := map (anchor_of a) (CreatePlot.unique_non_noise_labels a) in
  CreatePlot.generate_palette a locations
  = CreatePlot.generate_palette a' locations /\
  CreatePlot.color_step a locations = CreatePlot.color_step a' locations.
Proof.
  intros a a' locations.
  destruct (create_plot_palette_deterministic a a' locations locations
              eq_refl eq_refl eq_refl eq_refl eq_refl) as [Hp Hs].
  split; [exact Hp|]. by apply Hs.
Defined.

(** C5, as stated, fails: two calls with the same points, anchors, hue
    parameters and colour map object, hence the same palette, that differ in
    [noise_color] only get different auto-generated colour maps. *)
Lemma create_plot_color_map_needs_noise_color :
  let a := plot_defaults four_points four_labels in
  let a' := plot_call four_points four_labels "#000000" None false false ∅ in
  let locations := map (anchor_of a) (CreatePlot.unique_non_noise_labels a) in
  CreatePlot.data_map_coords a = CreatePlot.data_map_coords a' /\
  CreatePlot.label_locations a = Return locations /\
  CreatePlot.label_locations a' = Return locations /\
  CreatePlot.palette_hue_shift a = CreatePlot.palette_hue_shift a' /\
  CreatePlot.palette_hue_radius_dependence a
  = CreatePlot.palette_hue_radius_dependence a' /\
  CreatePlot.cmap a = CreatePlot.cmap a' /\
  CreatePlot.generate_palette a locations
  = CreatePlot.generate_palette a' locations /\
  exists colors m colors' m',
    CreatePlot.color_step a locations = Return (colors, m) /\
    CreatePlot.color_step a' locations = Return (colors', m') /\
    m !! "Unlabelled" = Some "#999999" /\
    m' !! "Unlabelled" = Some "#000000" /\
    m <> m'.
Proof.
  intros a a' locations. split_and!; try reflexivity.
  eexists _, _, _, _. split_and!.
  - by apply color_step_auto_ok.
  - by apply (color_step_auto_ok a').
  - rewrite auto_map_lookup. reflexivity.
  - rewrite auto_map_lookup. reflexivity.
  - intros Heq. apply (f_equal (fun m => m !! "Unlabelled")) in Heq.
    rewrite !auto_map_lookup in Heq. discriminate Heq.
Qed.

Lemma create_plot_label_text_colors_witness :
  let a := plot_defaults four_points four_labels in
  exists c base,
    CreatePlot.render_plot_call a = Return c /\
    RenderPlot.label_text_colors c = Some (deep_palette base).
Proof.
  intros a.
  destruct (render_plot_call_total a (plot_defaults_reach _ _)) as [c Hc].
  destruct (create_plot_label_text_colors a c Hc)
    as (? & ? & ? & base & _ & _ & _ & Htc).
  by exists c, base.
Defined.


End CreatePlotWitnesses.

(** ** Claims about create_interactive_plot *)

Section InteractiveClaims.
Import CreateInteractivePlot.
Context `{PaletteHandling} `{Textwrap} `{Matplotlib} `{InteractiveRendering}.
Implicit Types (a : args).

(** C8.  In a call of [create_interactive_plot] with
    [marker_color_array=None] and at least one label layer that reaches
    [render_html], the marker colour of every point in the point dataframe
    is the colour that [color_map] gives the point's label in the first
    (finest) layer where the point is not noise, the layers being painted in
    reversed order so that earlier layers overwrite later ones; a point that
    has [noise_label] in every layer keeps [noise_color]. *)
Theorem create_interactive_plot_marker_colors a c :
  marker_color_array a = None ->
  label_layers a <> [] ->
  render_html_call a = Return c ->
  exists rows color_map text_palette noise,
    label_rows a = Return rows /\
    color_step a rows = Return (color_map, text_palette) /\
    rgb255 (noise_color a) = Return noise /\
    forall i, (i < length (data_map_coords a))%nat ->
      is_Some (marker_color (RenderHtml.point_dataframe c) i) /\
      marker_color (RenderHtml.point_dataframe c) i
      = match finest_label (noise_label a) (label_layers a) i with
        | Some l => color_map !! l
        | None => Some noise
        end.
Proof.
  intros Hnone _ Hc.
  apply render_html_call_Return_inv in Hc
    as (rows & color_map & tp & ldf & points & Hrows & Hstep & _ & Hp & ->).
  simpl.
  apply point_dataframe_Return_inv in Hp as (cv & Hcv & Hlen & Hmark).
  apply (color_vector_painted a color_map cv Hnone) in Hcv
    as (noise & Hnoise & _ & Hlook).
  exists rows, color_map, tp, noise. split_and!; [done..|].
  intros i Hi. rewrite Hmark, (Hlook i Hi).
  assert (is_Some (cv !! i)) as Hsome by (apply lookup_lt_is_Some; lia).
  rewrite (Hlook i Hi) in Hsome.
  destruct (finest_label (noise_label a) (label_layers a) i) as [l|].
  - destruct (color_map !! l) as [col|] eqn:Hl; [|by destruct Hsome].
    simpl. pose proof (color_step_range a rows _ _ Hstep l col Hl) as Hr.
    rewrite !(rgb_to_uint8_in_range col Hr). by eauto.
  - simpl. pose proof (rgb255_range _ _ Hnoise) as Hr.
    rewrite !(rgb_to_uint8_in_range noise Hr). by eauto.
Qed.

End InteractiveClaims.

Section InteractiveWitnesses.
Import Sample.
Import CreateInteractivePlot.

Lemma sample_rgb255_ok c :
  c ∈ sample_colors -> rgb255 c = Return (sample_rgb255 c).
Proof.
  unfold sample_colors. rewrite !elem_of_cons, elem_of_nil.
  intros [->|[->|[->|[->|[->|[->|[]]]]]]];
    unfold rgb255; simpl; unfold sample_rgb255; simpl; f_equal;
    repeat match goal with
    | |- (_, _) = (_, _) => f_equal
    | |- py_int ?x = ?z =>
        replace x with (IZR z) by lra; apply py_int_IZR
    end.
Qed.

Lemma sample_traverse_rgb255 (colors : list color) :
  Forall (fun c => c ∈ sample_colors) colors ->
  traverse rgb255 colors = Return (map sample_rgb255 colors).
Proof.
  intros Hall. apply traverse_map. intros c Hc.
  apply sample_rgb255_ok. by eapply Forall_forall in Hall.
Qed.

Lemma two_layers_reach :
  exists c rows tp,
    render_html_call (interactive_call three_points two_layers None None)
    = Return c /\
    label_rows (interactive_call three_points two_layers None None)
    = Return rows /\
    color_step (interactive_call three_points two_layers None None) rows
    = Return (dict_of_pairs [("a", (255, 0, 0)); ("A", (0, 255, 0))]%Z, tp).
Proof.
  set (a := interactive_call three_points two_layers None None).
  assert (exists rows, label_rows a = Return rows /\
            map LabelFrame.label rows = ["a"; "A"] /\ length rows = 2%nat)
    as (rows & Hrows & Hnames & Hlen).
  { eexists. split_and!; reflexivity. }
  assert (generate_palette a rows = ["#ff0000"; "#00ff00"]) as Hpal.
  { unfold generate_palette. simpl.
    destruct rows as [|r1 [|r2 [|r3 rows]]]; try done. }
  assert (color_step a rows
          = Return (dict_of_pairs [("a", (255, 0, 0)); ("A", (0, 255, 0))]%Z,
                    [(0, 0, 0); (0, 0, 0)]%Z)) as Hstep.
  { unfold color_step. simpl label_color_map. cbv iota. cbv zeta. rewrite Hpal.
    unfold_bind. rewrite !sample_traverse_rgb255.
    - rewrite Hnames. reflexivity.
    - repeat constructor; set_solver.
    - unfold text_variant. simpl. repeat constructor; set_solver. }
  assert (exists ldf,
            colored_label_rows a rows [(0, 0, 0); (0, 0, 0)]%Z = Return ldf)
    as [ldf Hldf].
  { unfold colored_label_rows. simpl. unfold check_column_length. simpl.
    rewrite Hlen. simpl. by eauto. }
  assert (exists p,
            point_dataframe a
              (dict_of_pairs [("a", (255, 0, 0)); ("A", (0, 255, 0))]%Z)
            = Return p) as [p Hp].
  { unfold point_dataframe, color_vector. simpl marker_color_array.
    simpl hover_text. simpl marker_size_array. simpl noise_color.
    unfold_bind. rewrite (sample_rgb255_ok "#999999") by set_solver.
    eexists. reflexivity. }
  eexists _, rows, _. split_and!; [|done|done].
  unfold render_html_call. unfold_bind. rewrite Hrows, Hstep, Hldf, Hp. done.
Qed.

Lemma create_interactive_plot_marker_colors_witness :
  let a := interactive_call three_points two_layers None None in
  exists c,
    render_html_call a = Return c /\
    marker_color (RenderHtml.point_dataframe c) 0 = Some (255, 0, 0)%Z /\
    marker_color (RenderHtml.point_dataframe c) 1 = Some (0, 255, 0)%Z /\
    marker_color (RenderHtml.point_dataframe c) 2 = Some (153, 153, 153)%Z.
Proof.
  intros a. destruct two_layers_reach as (c & rows & tp & Hc & Hrows & Hstep).
  destruct (create_interactive_plot_marker_colors a c eq_refl
              ltac:(discriminate) Hc)
    as (rows' & cm & tp' & noise & Hrows' & Hstep' & Hnoise & Hmark).
  fold a in Hrows, Hstep.
  rewrite Hrows in Hrows'. injection Hrows' as <-.
  rewrite Hstep in Hstep'. injection Hstep' as <- <-.
  change (rgb255 "#999999" = Return noise) in Hnoise.
  rewrite (sample_rgb255_ok "#999999") in Hnoise by set_solver.
  injection Hnoise as <-.
  exists c. split; [exact Hc|].
  split_and!.
  - destruct (Hmark 0%nat) as [_ ->]; [simpl; lia|reflexivity].
  - destruct (Hmark 1%nat) as [_ ->]; [simpl; lia|reflexivity].
  - destruct (Hmark 2%nat) as [_ ->]; [simpl; lia|reflexivity].
Defined.

End InteractiveWitnesses.

(** ** Claims about both entry points *)

Section EntryPointClaims.
Context `{PaletteHandling} `{Medoids} `{Textwrap} `{PlotRendering}
        `{Matplotlib} `{InteractiveRendering}.

(** C3, as amended.  [create_plot] returns exactly when its call reaches
    [render_plot] and [render_plot] returns, and what it returns is the
    (fig, ax) pair of [render_plot].  [create_interactive_plot] called with
    no label layer returns [None]; called with at least one, it returns
    exactly when its call reaches [render_html] and [render_html] returns,
    and what it returns is an [InteractiveFigure] that wraps the HTML string
    of [render_html] with the [width] and [height] of the call. *)
Theorem entry_points_return :
  (forall a fa,
     CreatePlot.create_plot a = Return fa <->
     exists c, CreatePlot.render_plot_call a = Return c /\
               render_plot c = Gave fa) /\
  (forall b,
     CreateInteractivePlot.label_layers b = [] ->
     CreateInteractivePlot.create_interactive_plot b = Return None) /\
  (forall b r,
     CreateInteractivePlot.label_layers b <> [] ->
     CreateInteractivePlot.create_interactive_plot b = Return r <->
     exists c html,
       CreateInteractivePlot.render_html_call b = Return c /\
       render_html c = Gave html /\
       r = Some {| InteractiveFigure.html_str := html;
                   InteractiveFigure.width := CreateInteractivePlot.width b;
                   InteractiveFigure.height := CreateInteractivePlot.height b |}).
Proof.
  split_and!.
  - apply create_plot_Return_iff.
  - apply create_interactive_plot_no_layers.
  - apply create_interactive_plot_Return_iff.
Qed.


End EntryPointClaims.

Section EntryPointWitnesses.
Import Sample.

(** C3, as stated, fails: a call of [create_interactive_plot] with no label
    layer returns [None], not an [InteractiveFigure]. *)
Lemma create_interactive_plot_zero_layers_None :
  CreateInteractivePlot.create_interactive_plot
    (interactive_call three_points [] None None) = Return None /\
  forall figure : InteractiveFigure.t,
    CreateInteractivePlot.create_interactive_plot
      (interactive_call three_points [] None None) <> Return (Some figure).
Proof. split; [reflexivity|]. intros figure. discriminate. Qed.

Lemma entry_points_return_witness :
  (exists c,
     CreatePlot.render_plot_call (plot_defaults four_points four_labels)
     = Return c /\
     CreatePlot.create_plot (plot_defaults four_points four_labels)
     = Return (c, four_points)) /\
  CreateInteractivePlot.create_interactive_plot
    (interactive_call three_points two_layers None None)
  = Return (Some {| InteractiveFigure.html_str := "<html></html>";
                    InteractiveFigure.width := PyStr "100%";
                    InteractiveFigure.height := PyInt 800 |}).
Proof.
  destruct entry_points_return as (Hplot & _ & Hinter). split.
  - destruct (render_plot_call_total _ (plot_defaults_reach "#999999" false))
      as [c Hc].
    exists c. split; [exact Hc|]. apply Hplot. exists c. split; [exact Hc|].
    apply render_plot_call_Return_inv in Hc
      as (? & ? & ? & ? & ? & _ & _ & _ & _ & _ & ->).
    reflexivity.
  - destruct two_layers_reach as (c & _ & _ & Hc & _).
    apply Hinter; [discriminate|]. by exists c, "<html></html>".
Defined.


End EntryPointWitnesses.

(** * Further properties of create_plot *)

Section CreatePlotFurther.
Import CreatePlot.
Context `{PaletteHandling} `{Medoids} `{Textwrap} `{PlotRendering}.
Implicit Types (a : args).

(** Without a cluster to locate no mask is taken, whatever the lengths. *)
Lemma label_locations_ok_weak a :
  (unique_non_noise_labels a <> [] ->
   length (labels a) = length (data_map_coords a)) ->
  label_locations a = Return (map (anchor_of a) (unique_non_noise_labels a)).
Proof.
  intros Hlen. destruct (unique_non_noise_labels a) as [|l U] eqn:HU.
  - unfold label_locations. rewrite HU. by destruct (use_medoids a).
  - rewrite <- HU. apply label_locations_ok. by apply Hlen.
Qed.

Lemma given_color_list_lookup a m colors :
  given_color_list a m = Return colors ->
  length colors = length (labels a) /\
  forall j l, labels a !! j = Some l ->
    colors !! j
    = if decide (l = noise_label a) then Some (noise_color a) else m !! l.
Proof.
  intros Hg. pose proof (traverse_length _ _ _ Hg) as Hlen.
  apply traverse_Return_inv in Hg. split; [done|].
  intros j l Hj.
  destruct (Forall2_lookup_l _ _ _ _ _ Hg Hj) as (c & Hc & Hf).
  cbv beta in Hf. rewrite Hc.
  destruct (decide (l = noise_label a)) as [Heq|Hne].
  - rewrite decide_False in Hf by (intros Hn; by apply Hn). congruence.
  - rewrite decide_True in Hf by done. unfold dict_get in Hf.
    destruct (m !! l); naive_solver.
Qed.

Lemma dynamic_adjustments_font a adjustments :
  dynamic_adjustments a = Return adjustments ->
  forall v, render_plot_kwds a !! "label_font_size" = Some v ->
    is_Some (as_number v).
Proof.
  unfold dynamic_adjustments. cbv zeta. unfold_bind. intros Hd v Hv.
  rewrite Hv in Hd. destruct (as_number v); [by eauto|done].
Qed.

Lemma bind_keywords_Return_inv a u :
  bind_keywords a = Return u ->
  Forall (fun k => forwarded_kwds a !! k = None) RenderPlot.explicit_keywords.
Proof.
  unfold bind_keywords. case_decide as Hex; [done|]. intros _.
  apply Forall_forall. intros k Hk.
  destruct (forwarded_kwds a !! k) as [v|] eqn:Hv; [|done].
  exfalso. apply Hex. apply Exists_exists. exists k. split; [done|by eauto].
Qed.


(** X2.  With a colour map given by the caller, a call that reaches
    [render_plot] colours every non-noise point with the map's colour of its
    label and every noise point with [noise_color], whatever the map holds
    for [noise_label]; the highlight colours are the map's colours of the
    unique non-noise labels. *)
Theorem create_plot_given_color_map a m c :
  label_color_map a = Some m ->
  marker_color_array a = None ->
  render_plot_call a = Return c ->
  length (RenderPlot.color_list c) = length (labels a) /\
  (forall j l, labels a !! j = Some l ->
     RenderPlot.color_list c !! j
     = if decide (l = noise_label a) then Some (noise_color a) else m !! l) /\
  Forall2 (fun l col => m !! l = Some col) (unique_non_noise_labels a)
          (RenderPlot.highlight_colors c).
Proof.
  intros Hmap Hmarker Hc.
  apply render_plot_call_Return_inv in Hc
    as (locations & colors & m' & base & adj & _ & Hstep & Hbase & _ & _ & ->).
  simpl. rewrite Hmarker.
  unfold color_step in Hstep. rewrite Hmap in Hstep. unfold_bind.
  destruct (given_color_list a m) as [e|cs] eqn:Hg; [done|].
  injection Hstep as <- <-.
  apply given_color_list_lookup in Hg as [Hlen Hlook].
  split_and!; [done|done|]. by apply label_colors_Return_inv.
Qed.

Lemma all_noise_no_labels a :
  (forall l, l ∈ labels a -> l = noise_label a) ->
  unique_non_noise_labels a = [].
Proof.
  intros Hall. destruct (unique_non_noise_labels a) as [|l U] eqn:HU; [done|].
  assert (l ∈ unique_non_noise_labels a) as Hl by (rewrite HU; by left).
  apply elem_of_unique_non_noise_labels in Hl as [Hin Hne].
  by apply Hall in Hin.
Qed.


End CreatePlotFurther.

Section CreatePlotFurtherWitnesses.
Import Sample.

Lemma create_plot_given_color_map_witness :
  let m : gmap string color :=
    <["a" := "#ff0000"]> (<["b" := "#00ff00"]>
      (<["Unlabelled" := "#0000ff"]> ∅)) in
  let a := plot_call four_points four_labels "#999999" (Some m) false false ∅ in
  exists c,
    CreatePlot.render_plot_call a = Return c /\
    RenderPlot.color_list c !! 0%nat = Some "#00ff00" /\
    RenderPlot.color_list c !! 2%nat = Some "#999999" /\
    RenderPlot.color_list c !! 3%nat = Some "#ff0000".
Proof.
  intros m a.
  destruct (render_plot_call_total a) as [c Hc].
  { split_and!; [reflexivity| |discriminate|repeat constructor].
    intros m' l [= <-] Hin Hne. unfold a in Hin. simpl in Hin.
    repeat (apply elem_of_cons in Hin as [->|Hin]);
      try (by apply elem_of_nil in Hin); try done; by eexists. }
  destruct (create_plot_given_color_map a m c eq_refl eq_refl Hc)
    as (_ & Hlook & _).
  exists c. split; [exact Hc|].
  split_and!.
  - etrans; [apply (Hlook 0%nat "b")|]; reflexivity.
  - etrans; [apply (Hlook 2%nat "Unlabelled")|]; reflexivity.
  - etrans; [apply (Hlook 3%nat "a")|]; reflexivity.
Defined.


End CreatePlotFurtherWitnesses.

(** ** Sizes: dynamic label sizes, point size and alpha *)

(** The number of points that carry the label [l]. *)
Definition label_count (labels : list string) (l : string) : nat :=
  length (filter (fun x => x = l) labels).

(** [np.sqrt] of that count: the cluster size of line 244. *)
Definition cluster_size (labels : list string) (l : string) : R :=
  sqrt (INR (label_count labels l)).

(** [render_plot_kwds.get("label_font_size", font_scale_factor)], when it is
    a number. *)
Definition label_font_size (a : CreatePlot.args) : option R :=
  match CreatePlot.render_plot_kwds a !! "label_font_size" with
  | Some v => as_number v
  | None => Some (CreatePlot.figure_scale a)
  end.

Lemma Rlist_min_le (l : list R) x : x ∈ l -> (Rlist_min l <= x)%R.
Proof.
  destruct l as [|y l]; [by intros ?%elem_of_nil|]. simpl.
  revert x. induction l as [|z l IH]; intros x Hx; simpl.
  - apply list_elem_of_singleton in Hx as ->. lra.
  - apply elem_of_cons in Hx as [->|Hx].
    + etrans; [apply Rmin_r|]. apply IH. by left.
    + apply elem_of_cons in Hx as [->|Hx].
      * apply Rmin_l.
      * etrans; [apply Rmin_r|]. apply IH. by right.
Qed.

Lemma Rlist_max_ge (l : list R) x : x ∈ l -> (x <= Rlist_max l)%R.
Proof.
  destruct l as [|y l]; [by intros ?%elem_of_nil|]. simpl.
  revert x. induction l as [|z l IH]; intros x Hx; simpl.
  - apply list_elem_of_singleton in Hx as ->. lra.
  - apply elem_of_cons in Hx as [->|Hx].
    + etrans; [|apply Rmax_r]. apply IH. by left.
    + apply elem_of_cons in Hx as [->|Hx].
      * apply Rmax_l.
      * etrans; [|apply Rmax_r]. apply IH. by right.
Qed.

Lemma Rlist_min_elem (l : list R) : l <> [] -> Rlist_min l ∈ l.
Proof.
  destruct l as [|y l]; [done|]. intros _. simpl.
  induction l as [|z l IH]; simpl; [by left|].
  unfold Rmin at 1. destruct (Rle_dec _ _).
  - right. by left.
  - apply elem_of_cons in IH as [->|IH]; [by left|]. right. by right.
Qed.

Lemma Rlist_max_elem (l : list R) : l <> [] -> Rlist_max l ∈ l.
Proof.
  destruct l as [|y l]; [done|]. intros _. simpl.
  induction l as [|z l IH]; simpl; [by left|].
  unfold Rmax at 1. destruct (Rle_dec _ _).
  - apply elem_of_cons in IH as [->|IH]; [by left|]. right. by right.
  - right. by left.
Qed.

Lemma Rdiv_unit_interval (x h : R) :
  (0 < h)%R -> (0 <= x <= h)%R -> (0 <= x / h <= 1)%R.
Proof.
  intros Hh [Hx0 Hxh]. unfold Rdiv.
  pose proof (Rinv_0_lt_compat h Hh) as Hinv. split.
  - apply Rmult_le_pos; lra.
  - replace 1%R with (h * / h)%R by (field; lra).
    apply Rmult_le_compat_r; lra.
Qed.

Lemma np_unique_nonempty (v : list string) l :
  l ∈ v -> length (np_unique v) = 0%nat -> False.
Proof.
  intros Hl Hlen. apply length_zero_iff_nil in Hlen.
  rewrite <- elem_of_np_unique, Hlen in Hl. by apply elem_of_nil in Hl.
Qed.

Lemma cluster_size_le labels l l' :
  label_count labels l <= label_count labels l' ->
  (cluster_size labels l <= cluster_size labels l')%R.
Proof. intros Hle. unfold cluster_size. by apply sqrt_le_1_alt, le_INR. Qed.

Lemma cluster_size_lt labels l l' :
  label_count labels l < label_count labels l' ->
  (cluster_size labels l < cluster_size labels l')%R.
Proof.
  intros Hlt. unfold cluster_size. apply sqrt_lt_1_alt. split.
  - apply pos_INR.
  - by apply lt_INR.
Qed.

Section CreatePlotSizes.
Import CreatePlot.
Context `{PaletteHandling} `{Medoids} `{Textwrap} `{PlotRendering}.
Implicit Types (a : args).

(** The smallest cluster size and the largest shifted size of lines
    245-246, over every label of the vector. *)
Definition lowest_size a : R :=
  Rlist_min (map (cluster_size (labels a)) (np_unique (labels a))).

Definition highest_shift a : R :=
  Rlist_max (map (fun u => (cluster_size (labels a) u - lowest_size a)%R)
                 (np_unique (labels a))).

(** The adjustment of the label [l] under [dynamic_label_size]. *)
Definition dynamic_adjustment a (font : R) (l : string) : R :=
  ((cluster_size (labels a) l - lowest_size a) / highest_shift a
   * (font + 2) - 2)%R.

Lemma dynamic_adjustments_Return_inv a adjustments :
  dynamic_adjustments a = Return adjustments ->
  exists font,
    label_font_size a = Some font /\
    adjustments = map (dynamic_adjustment a font) (unique_non_noise_labels a).
Proof.
  unfold dynamic_adjustments, label_font_size. cbv zeta. unfold_bind.
  intros Hd.
  assert (exists font,
    match render_plot_kwds a !! "label_font_size" with
    | Some v => as_number v
    | None => Some (figure_scale a)
    end = Some font /\
    match render_plot_kwds a !! "label_font_size" with
    | Some v => match as_number v with
                | Some r => Return r
                | None => Raise (Exn TypeError Operator)
                end
    | None => Return (figure_scale a)
    end = Return font) as (font & Hfont & Hfont').
  { destruct (render_plot_kwds a !! "label_font_size") as [v|];
      [destruct (as_number v) as [r|]|]; try done; by eauto. }
  exists font. split; [done|].
  rewrite Hfont' in Hd.
  assert (map (fun '(u, n) => (u, sqrt (INR n)))
              (value_counts (cluster_label_vector a))
          = map (fun u => (u, cluster_size (labels a) u))
                (np_unique (labels a))) as Hsizes.
  { unfold value_counts, cluster_label_vector. by rewrite map_map. }
  rewrite Hsizes in Hd. rewrite !map_map in Hd. simpl in Hd.
  fold (lowest_size a) in Hd. fold (highest_shift a) in Hd.
  rewrite (traverse_map _ (dynamic_adjustment a font)) in Hd;
    [by injection Hd as <-|].
  intros l Hl. unfold dict_get.
  rewrite (dict_of_pairs_lookup_Some _ l (dynamic_adjustment a font l)); [done| |].
  - rewrite map_map. simpl. rewrite map_id. apply np_unique_NoDup.
  - apply list_elem_of_fmap. exists l. split; [done|].
    apply elem_of_np_unique.
    by apply elem_of_unique_non_noise_labels in Hl as [Hin _].
Qed.

Lemma lowest_size_le a l : l ∈ labels a -> (lowest_size a <= cluster_size (labels a) l)%R.
Proof.
  intros Hl. apply Rlist_min_le, list_elem_of_fmap. exists l.
  by rewrite elem_of_np_unique.
Qed.

Lemma shift_le_highest a l :
  l ∈ labels a ->
  (cluster_size (labels a) l - lowest_size a <= highest_shift a)%R.
Proof.
  intros Hl. apply Rlist_max_ge, list_elem_of_fmap. exists l.
  by rewrite elem_of_np_unique.
Qed.

Lemma highest_shift_pos a l1 l2 :
  l1 ∈ labels a -> l2 ∈ labels a ->
  label_count (labels a) l1 < label_count (labels a) l2 ->
  (0 < highest_shift a)%R.
Proof.
  intros Hl1 Hl2 Hlt.
  pose proof (lowest_size_le a l1 Hl1). pose proof (shift_le_highest a l2 Hl2).
  pose proof (cluster_size_lt _ _ _ Hlt). lra.
Qed.


End CreatePlotSizes.

Lemma np_clip_monotone x y lo hi :
  (x <= y)%R -> (np_clip x lo hi <= np_clip y lo hi)%R.
Proof.
  intros Hxy. unfold np_clip, Rmin, Rmax.
  repeat destruct (Rle_dec _ _); lra.
Qed.

Lemma ln_10_pos : (0 < ln 10)%R.
Proof. rewrite <- ln_1. apply ln_increasing; lra. Qed.

Lemma np_log10_monotone x y :
  (0 < x)%R -> (x <= y)%R -> (np_log10 x <= np_log10 y)%R.
Proof.
  intros Hx Hxy. unfold np_log10, Rdiv.
  apply Rmult_le_compat_r.
  - left. apply Rinv_0_lt_compat, ln_10_pos.
  - destruct Hxy as [Hlt| ->]; [|lra]. left. by apply ln_increasing.
Qed.

Lemma py_int_floor (x : R) :
  (0 <= x)%R -> (IZR (py_int x) <= x < IZR (py_int x) + 1)%R.
Proof.
  intros Hx. unfold py_int. destruct (Rle_dec 0 x) as [_|Hneg]; [|lra].
  destruct (base_Int_part x). lra.
Qed.

Section CreatePlotHeuristicsFurther.
Import CreatePlot.
Implicit Types (a : args).

Lemma magic_number_monotone a a' :
  (1 <= n_points a <= n_points a')%Z ->
  (magic_number a' <= magic_number a)%R.
Proof.
  intros [H1 Hle]. unfold magic_number. apply np_clip_monotone.
  apply Rmult_le_compat_l; [lra|].
  apply Rle_Rpower; [lra|].
  apply Ropp_le_contravar, np_log10_monotone.
  - apply IZR_lt. lia.
  - by apply IZR_le.
Qed.

(** X5.  In the matplotlib branch the heuristics never grow with the number
    of points: of two calls with the same [figsize], the one with more
    points (at least one point each) has a point size and an alpha that are
    no larger. *)
Theorem create_plot_heuristics_monotone a a' :
  (1 <= n_points a <= n_points a')%Z ->
  matplotlib_branch a = true -> matplotlib_branch a' = true ->
  figsize a' = figsize a ->
  exists size size' al al',
    heuristic_point_size a = PyFloat size /\
    heuristic_point_size a' = PyFloat size' /\
    heuristic_alpha a = PyFloat al /\
    heuristic_alpha a' = PyFloat al' /\
    (size' <= size)%R /\ (al' <= al)%R.
Proof.
  intros Hn Hb Hb' Hfig.
  pose proof (magic_number_monotone a a' Hn) as Hm.
  unfold heuristic_point_size, heuristic_alpha. rewrite Hb, Hb'. cbv zeta.
  eexists _, _, _, _. split_and!; try reflexivity.
  - unfold figure_scale. rewrite Hfig.
    apply Rmult_le_compat_r; [|done].
    pose proof (sqrt_pos (fst (figsize a) * snd (figsize a))). lra.
  - by apply np_clip_monotone.
Qed.


End CreatePlotHeuristicsFurther.

Section CreatePlotSizesWitnesses.
Import Sample.


Lemma create_plot_heuristics_monotone_witness :
  let a := plot_defaults three_points ["a"; "a"; "b"] in
  let a' := plot_defaults four_points four_labels in
  exists size size' al al',
    CreatePlot.heuristic_point_size a = PyFloat size /\
    CreatePlot.heuristic_point_size a' = PyFloat size' /\
    CreatePlot.heuristic_alpha a = PyFloat al /\
    CreatePlot.heuristic_alpha a' = PyFloat al' /\
    (size' <= size)%R /\ (al' <= al)%R.
Proof.
  intros a a'.
  apply (create_plot_heuristics_monotone a a'); try reflexivity.
  unfold CreatePlot.n_points. simpl. lia.
Defined.


End CreatePlotSizesWitnesses.

(** * Further properties of create_interactive_plot *)

Lemma dict_of_pairs_lookup_last {V} (kvs : list (string * V)) i k v :
  kvs !! i = Some (k, v) ->
  (forall j v', i < j -> kvs !! j <> Some (k, v')) ->
  dict_of_pairs kvs !! k = Some v.
Proof.
  revert i. induction kvs as [|[k' v'] kvs IH] using rev_ind; intros i Hi Hlast.
  - done.
  - rewrite dict_of_pairs_snoc.
    destruct (decide (i = length kvs)) as [->|Hne].
    + rewrite lookup_app_r, Nat.sub_diag in Hi by lia. injection Hi as -> ->.
      by rewrite lookup_insert_eq.
    + assert (i < length kvs) as Hlt.
      { apply lookup_lt_Some in Hi. rewrite length_app in Hi. simpl in Hi. lia. }
      rewrite lookup_app_l in Hi by done.
      assert (k <> k') as Hk.
      { intros ->. apply (Hlast (length kvs) v'); [done|].
        by rewrite lookup_app_r, Nat.sub_diag by lia. }
      rewrite lookup_insert_ne by done. apply (IH i Hi).
      intros j v'' Hj Hjv. apply (Hlast j v'' Hj).
      rewrite lookup_app_l; [done|]. by eapply lookup_lt_Some.
Qed.

Section InteractiveFurther.
Import CreateInteractivePlot.
Context `{PaletteHandling} `{Textwrap} `{Matplotlib} `{InteractiveRendering}.
Implicit Types (a : args).

Lemma paint_layers_lengths a cm reversed_layers cv cv' :
  paint_layers a cm reversed_layers cv = Return cv' ->
  forall labels, labels ∈ reversed_layers ->
    (exists l, l ∈ labels /\ l <> noise_label a) ->
    length labels = length cv.
Proof.
  revert cv. induction reversed_layers as [|layer rest IH]; intros cv; simpl.
  - intros _ labels Hin. by apply elem_of_nil in Hin.
  - unfold_bind.
    destruct (paint_layer a cm layer cv) as [e|cv1] eqn:Hl; [done|].
    intros Hrest labels Hin Hex.
    rewrite paint_layer_names in Hl.
    apply paint_names_lookup in Hl as (Hlen1 & Hnames & _).
    apply elem_of_cons in Hin as [->|Hin].
    + apply Hnames. destruct Hex as (l & Hl & Hne).
      intros Hnil.
      assert (l ∈ filter (fun l => l <> noise_label a) (np_unique layer))
        as Hmem by by rewrite list_elem_of_filter, elem_of_np_unique.
      rewrite Hnil in Hmem. by apply elem_of_nil in Hmem.
    + rewrite <- Hlen1. by eapply IH.
Qed.

Lemma color_vector_given a color_map given cv :
  marker_color_array a = Some given ->
  color_vector a color_map = Return cv ->
  exists colors,
    traverse rgb255 given = Return colors /\ cv = map rgb_to_uint8 colors.
Proof.
  intros Hgiven. unfold color_vector. rewrite Hgiven. unfold_bind.
  destruct (traverse rgb255 given) as [e|colors]; [done|].
  intros [= <-]. by exists colors.
Qed.


Lemma colored_label_rows_Return_inv a rows tp ldf :
  colored_label_rows a rows tp = Return ldf ->
  length ldf = length rows /\
  forall i row, rows !! i = Some row ->
    exists cr,
      ldf !! i = Some cr /\
      LabelFrame.base cr = wrap_label a row /\
      LabelFrame.a cr = 64%Z /\
      if color_label_text a || color_cluster_boundaries a
      then tp !! i = Some (LabelFrame.r cr, LabelFrame.g cr, LabelFrame.b cr)
      else LabelFrame.r cr = (if darkmode a then 240 else 15)%Z /\
           LabelFrame.g cr = (if darkmode a then 240 else 15)%Z /\
           LabelFrame.b cr = (if darkmode a then 240 else 15)%Z.
Proof.
  unfold colored_label_rows.
  destruct (color_label_text a || color_cluster_boundaries a).
  - unfold_bind. destruct (columns tp) as [e|[[rs gs] bs]] eqn:Hcols; [done|].
    destruct (check_column_length (length rows) rs) as [e|u] eqn:Hlen; [done|].
    intros [= <-].
    apply columns_Return_inv in Hcols as (_ & -> & _ & _).
    apply check_column_length_Return_inv in Hlen. rewrite length_map in Hlen.
    unfold rgb in *.
    split; [rewrite length_zip_with; lia|].
    intros i row Hi.
    destruct (lookup_lt_is_Some_2 tp i) as [[[r g] b] Htp].
    { apply lookup_lt_Some in Hi. lia. }
    eexists. rewrite lookup_zip_with, Hi. simpl. rewrite Htp. simpl.
    split_and!; reflexivity.
  - cbv zeta. intros [= <-]. split; [by rewrite length_map|].
    intros i row Hi. eexists. rewrite list_lookup_fmap, Hi. simpl.
    split_and!; try reflexivity; by destruct (darkmode a).
Qed.

(** X8.  In a call of [create_interactive_plot] that reaches [render_html],
    the label dataframe passed has one row per row of the label dataframes
    of the layers, in their order, with the label wrapped, the anchor and
    the boundary unchanged and alpha 64.  The row is coloured with its entry
    of the text palette as soon as one of [color_label_text] and
    [color_cluster_boundaries] is set; only when both are off is it the grey
    15, or 240 in darkmode. *)
Theorem create_interactive_plot_label_dataframe a c :
  render_html_call a = Return c ->
  exists rows color_map text_palette,
    label_rows a = Return rows /\
    color_step a rows = Return (color_map, text_palette) /\
    length (RenderHtml.label_dataframe c) = length rows /\
    forall i row, rows !! i = Some row ->
      exists cr,
        RenderHtml.label_dataframe c !! i = Some cr /\
        LabelFrame.label (LabelFrame.base cr)
        = textwrap_fill (LabelFrame.label row) (label_wrap_width a) /\
        LabelFrame.x (LabelFrame.base cr) = LabelFrame.x row /\
        LabelFrame.y (LabelFrame.base cr) = LabelFrame.y row /\
        LabelFrame.boundary (LabelFrame.base cr) = LabelFrame.boundary row /\
        LabelFrame.a cr = 64%Z /\
        if color_label_text a || color_cluster_boundaries a
        then text_palette !! i
             = Some (LabelFrame.r cr, LabelFrame.g cr, LabelFrame.b cr)
        else LabelFrame.r cr = (if darkmode a then 240 else 15)%Z /\
             LabelFrame.g cr = (if darkmode a then 240 else 15)%Z /\
             LabelFrame.b cr = (if darkmode a then 240 else 15)%Z.
Proof.
  intros Hc.
  apply render_html_call_Return_inv in Hc
    as (rows & cm & tp & ldf & points & Hrows & Hstep & Hldf & _ & ->).
  simpl. exists rows, cm, tp.
  apply colored_label_rows_Return_inv in Hldf as [Hlen Hrow].
  split_and!; [done..|].
  intros i row Hi. destruct (Hrow i row Hi) as (cr & Hcr & Hbase & Ha & Hcol).
  exists cr. rewrite Hbase. by split_and!.
Qed.

Lemma point_dataframe_no_points a color_map points :
  data_map_coords a = [] -> point_dataframe a color_map <> Return points.
Proof.
  intros Hn Hp. unfold point_dataframe in Hp. unfold_bind. cbv zeta in Hp.
  destruct (match hover_text a with Some _ => _ | None => _ end); [done|].
  destruct (match marker_size_array a with Some _ => _ | None => _ end);
    [done|].
  destruct (color_vector a color_map) as [e|cv]; [done|].
  destruct (columns cv) as [e|[[rs gs] bs]] eqn:Hcols; [done|].
  destruct (check_column_length _ rs) as [e|u] eqn:Hlen; [done|].
  apply columns_Return_inv in Hcols as (Hne & -> & _ & _).
  apply check_column_length_Return_inv in Hlen.
  rewrite length_map, Hn in Hlen. simpl in Hlen.
  by apply length_zero_iff_nil in Hlen.
Qed.


(** X12.  In a call of [create_interactive_plot] without
    [marker_color_array] that reaches [render_html], every label layer that
    labels at least one point has exactly one label per point; a layer made
    of noise labels only is never measured. *)
Theorem create_interactive_plot_layer_lengths a c labels :
  marker_color_array a = None ->
  render_html_call a = Return c ->
  labels ∈ label_layers a ->
  (exists l, l ∈ labels /\ l <> noise_label a) ->
  length labels = length (data_map_coords a).
Proof.
  intros Hnone Hc Hin Hex.
  apply render_html_call_Return_inv in Hc
    as (rows & cm & tp & ldf & points & _ & _ & _ & Hp & _).
  apply point_dataframe_Return_inv in Hp as (cv & Hcv & _ & _).
  unfold color_vector in Hcv. rewrite Hnone in Hcv. unfold_bind.
  destruct (rgb255 (noise_color a)) as [e|noise]; [done|].
  eapply paint_layers_lengths in Hcv; [|by apply elem_of_reverse|done].
  by rewrite length_replicate in Hcv.
Qed.

End InteractiveFurther.

Section InteractiveColorMaps.
Import CreateInteractivePlot.
Context `{PaletteHandling} `{Textwrap} `{Matplotlib} `{InteractiveRendering}.
Implicit Types (a : args).

Lemma rgb255_Return_or_Raise color :
  (exists v, rgb255 color = Return v) \/
  rgb255 color = Raise (Exn HelperFailure (Helper "to_rgb")).
Proof.
  unfold rgb255. unfold_bind. destruct (to_rgb color) as [msg|[[r g] b]]; simpl.
  - by right.
  - left. by eexists.
Qed.

Lemma rgb255_Failed color msg :
  to_rgb color = Failed msg ->
  rgb255 color = Raise (Exn HelperFailure (Helper "to_rgb")).
Proof. intros Hf. unfold rgb255. unfold_bind. by rewrite Hf. Qed.

Lemma rgb255_Gave color v :
  to_rgb color = Gave v -> exists c, rgb255 color = Return c.
Proof.
  intros Hg. unfold rgb255. unfold_bind. rewrite Hg.
  destruct v as [[r g] b]. simpl. by eexists.
Qed.

(** The colour map built from a map given by the caller: each of its
    colours is the conversion of the given colour of the same label. *)
Lemma given_color_map_lookup a m rows color_map text_palette :
  label_color_map a = Some m ->
  color_step a rows = Return (color_map, text_palette) ->
  forall l v, color_map !! l = Some v ->
    exists col, m !! l = Some col /\ rgb255 col = Return v.
Proof.
  intros Hm Hstep l v Hl. unfold color_step in Hstep. rewrite Hm in Hstep.
  unfold_bind.
  destruct (traverse _ (map_to_list m)) as [e|entries] eqn:He; [done|].
  destruct (traverse _ rows) as [e|colors]; [done|].
  destruct (traverse rgb255 _) as [e|tp]; [done|].
  injection Hstep as <- <-.
  apply dict_of_pairs_lookup_elem in Hl.
  apply traverse_Return_inv in He.
  apply list_elem_of_lookup in Hl as [i Hi].
  destruct (Forall2_lookup_r _ _ _ _ _ He Hi) as ([label col] & Hin & Hc).
  unfold_bind. destruct (rgb255 col) as [e|c'] eqn:Hrgb; [done|].
  injection Hc as <- <-.
  exists col. split; [|done].
  apply elem_of_map_to_list. by eapply list_elem_of_lookup_2.
Qed.

(** X10.  [create_interactive_plot] converts every entry of a
    [label_color_map] given by the caller before it looks at the labels: a
    single entry that is no colour fails the call with the error of
    [to_rgb], even for a label that no layer uses; and when every entry is a
    colour, a cluster whose label has no entry fails the call with the
    KeyError of the dict subscript. *)
Theorem create_interactive_plot_given_color_map_errors a m rows :
  label_layers a <> [] ->
  label_color_map a = Some m ->
  label_rows a = Return rows ->
  ((exists l col msg, m !! l = Some col /\ to_rgb col = Failed msg) ->
   create_interactive_plot a = Raise (Exn HelperFailure (Helper "to_rgb"))) /\
  ((forall l col, m !! l = Some col -> exists v, to_rgb col = Gave v) ->
   (exists row, row ∈ rows /\ m !! LabelFrame.label row = None) ->
   create_interactive_plot a = Raise (Exn KeyError Dict)).
Proof.
  intros Hl Hm Hrows.
  assert (forall e, color_step a rows = Raise e ->
                    create_interactive_plot a = Raise e) as Hup.
  { intros e He. unfold create_interactive_plot, render_html_call.
    rewrite decide_False by (by destruct (label_layers a)).
    unfold_bind. by rewrite Hrows, He. }
  split.
  - intros (l & col & msg & Hlc & Hfail). apply Hup.
    unfold color_step. rewrite Hm. unfold_bind.
    rewrite (traverse_Raise_uniform _ (map_to_list m) (l, col)
               (Exn HelperFailure (Helper "to_rgb"))); [done| | |].
    + intros [l' col'] _. unfold_bind.
      destruct (rgb255_Return_or_Raise col') as [[v ->]| ->]; by eauto.
    + by apply elem_of_map_to_list.
    + unfold_bind. by rewrite (rgb255_Failed col msg Hfail).
  - intros Hall (row & Hrow & Hmiss). apply Hup.
    unfold color_step. rewrite Hm. unfold_bind.
    destruct (traverse_total
                (fun '(label, color) =>
                   c ← rgb255 color; (mret (label, c) : result (string * rgb)))
                (map_to_list m)) as [entries He].
    { intros [l col] Hin. apply elem_of_map_to_list in Hin.
      destruct (Hall l col Hin) as [v Hv].
      destruct (rgb255_Gave col v Hv) as [c Hc].
      exists (l, c). unfold_bind. by rewrite Hc. }
    unfold_bind. rewrite He.
    rewrite (traverse_Raise_uniform _ rows row (Exn KeyError Dict)); [done| |done|].
    + intros row' _. unfold dict_get.
      destruct (m !! LabelFrame.label row'); by eauto.
    + unfold dict_get. by rewrite Hmiss.
Qed.

(** X11.  In the auto-generated colour map of [create_interactive_plot],
    a label has the palette colour of the last row of the label dataframe
    that carries it: when a label occurs in several layers, the coarsest
    layer's colour wins. *)
Theorem create_interactive_plot_auto_color_map_last_row
    a rows color_map text_palette i row :
  label_color_map a = None ->
  color_step a rows = Return (color_map, text_palette) ->
  rows !! i = Some row ->
  (forall j row', i < j -> rows !! j = Some row' ->
     LabelFrame.label row' <> LabelFrame.label row) ->
  exists color v,
    generate_palette a rows !! i = Some color /\
    rgb255 color = Return v /\
    color_map !! LabelFrame.label row = Some v.
Proof.
  intros Hnone Hstep Hi Hlast.
  unfold color_step in Hstep. rewrite Hnone in Hstep. unfold_bind.
  cbv zeta in Hstep.
  destruct (traverse rgb255 (text_variant a _)) as [e|tp]; [done|].
  destruct (traverse rgb255 (generate_palette a rows)) as [e|palette] eqn:Hp;
    [done|].
  injection Hstep as <- <-.
  assert (length (generate_palette a rows) = length rows) as Hlen.
  { unfold generate_palette, anchors.
    destruct (cmap a);
      by rewrite ?palette_from_cmap_and_datamap_length,
                 ?palette_from_datamap_length, length_map. }
  destruct (lookup_lt_is_Some_2 (generate_palette a rows) i) as [color Hcolor].
  { apply lookup_lt_Some in Hi. lia. }
  apply traverse_Return_inv in Hp.
  destruct (Forall2_lookup_l _ _ _ _ _ Hp Hcolor) as (v & Hv & Hrgb).
  exists color, v. split_and!; [done|done|].
  apply (dict_of_pairs_lookup_last _ i).
  - rewrite lookup_zip_with, list_lookup_fmap, Hi. simpl. by rewrite Hv.
  - intros j v' Hj Hjv. rewrite lookup_zip_with, list_lookup_fmap in Hjv.
    destruct (rows !! j) as [row'|] eqn:Hrow'; [|done]. simpl in Hjv.
    destruct (palette !! j); [|done]. simpl in Hjv. injection Hjv as Hlab _.
    by apply (Hlast j row' Hj).
Qed.

(** X13.  With a [label_color_map] given by the caller and no
    [marker_color_array], a call of [create_interactive_plot] that reaches
    [render_html] colours each point with the conversion of the colour the
    given map holds for the point's label in the finest layer where it is
    not noise, and with the conversion of [noise_color] when it is noise in
    every layer. *)
Theorem create_interactive_plot_given_map_marker_colors a m c i :
  label_color_map a = Some m ->
  marker_color_array a = None ->
  render_html_call a = Return c ->
  i < length (data_map_coords a) ->
  match finest_label (noise_label a) (label_layers a) i with
  | Some l =>
      exists col v,
        m !! l = Some col /\ rgb255 col = Return v /\
        marker_color (RenderHtml.point_dataframe c) i = Some v
  | None =>
      exists v,
        rgb255 (noise_color a) = Return v /\
        marker_color (RenderHtml.point_dataframe c) i = Some v
  end.
Proof.
  intros Hm Hnone Hc Hi.
  apply render_html_call_Return_inv in Hc
    as (rows & cm & tp & ldf & points & _ & Hstep & _ & Hp & ->).
  simpl.
  apply point_dataframe_Return_inv in Hp as (cv & Hcv & Hlen & Hmark).
  apply (color_vector_painted a cm cv Hnone) in Hcv
    as (noise & Hnoise & _ & Hlook).
  assert (is_Some (cv !! i)) as Hsome by (apply lookup_lt_is_Some; lia).
  rewrite (Hlook i Hi) in Hsome. rewrite Hmark, (Hlook i Hi).
  destruct (finest_label (noise_label a) (label_layers a) i) as [l|].
  - destruct (cm !! l) as [v|] eqn:Hl; [|by destruct Hsome].
    destruct (given_color_map_lookup a m rows cm tp Hm Hstep l v Hl)
      as (col & Hcol & Hrgb).
    exists col, v. split_and!; [done|done|].
    simpl. pose proof (rgb255_range _ _ Hrgb) as Hr.
    by rewrite !(rgb_to_uint8_in_range v Hr).
  - exists noise. split; [done|].
    simpl. pose proof (rgb255_range _ _ Hnoise) as Hr.
    by rewrite !(rgb_to_uint8_in_range noise Hr).
Qed.

End InteractiveColorMaps.

Section InteractiveFurtherWitnesses.
Import Sample.
Import CreateInteractivePlot.

(** The rows and the palette of the sample call, whatever the colour
    options: one row per non-noise label of each layer. *)
Lemma two_layers_rows lcm mk :
  exists rows,
    label_rows (interactive_call three_points two_layers lcm mk) = Return rows /\
    map LabelFrame.label rows = ["a"; "A"] /\
    length rows = 2%nat.
Proof. eexists. split_and!; reflexivity. Qed.

Lemma sample_colored_label_rows lcm mk rows (tp : list rgb) :
  length rows = 2%nat -> length tp = 2%nat ->
  exists ldf,
    colored_label_rows (interactive_call three_points two_layers lcm mk) rows tp
    = Return ldf.
Proof.
  intros Hrows Htp. unfold colored_label_rows. simpl.
  destruct tp as [|c1 [|c2 [|c3 tp]]]; try done.
  unfold_bind. simpl. unfold check_column_length. simpl. rewrite Hrows. simpl.
  by eauto.
Qed.

Lemma two_layers_marker_reach :
  exists c,
    render_html_call
      (interactive_call three_points two_layers None
         (Some ["#ff0000"; "#00ff00"; "#0000ff"]))
    = Return c.
Proof.
  set (a := interactive_call three_points two_layers None
              (Some ["#ff0000"; "#00ff00"; "#0000ff"])).
  destruct (two_layers_rows None (Some ["#ff0000"; "#00ff00"; "#0000ff"]))
    as (rows & Hrows & Hnames & Hlen). fold a in Hrows.
  assert (generate_palette a rows = ["#ff0000"; "#00ff00"]) as Hpal.
  { unfold generate_palette. simpl.
    destruct rows as [|r1 [|r2 [|r3 rows]]]; try done. }
  assert (exists cm, color_step a rows
                     = Return (cm, [(0, 0, 0); (0, 0, 0)]%Z)) as [cm Hstep].
  { unfold color_step. simpl label_color_map. cbv iota. cbv zeta. rewrite Hpal.
    unfold_bind. rewrite !sample_traverse_rgb255.
    - by eexists.
    - repeat constructor; set_solver.
    - unfold text_variant. simpl. repeat constructor; set_solver. }
  destruct (sample_colored_label_rows None
              (Some ["#ff0000"; "#00ff00"; "#0000ff"]) rows
              [(0, 0, 0); (0, 0, 0)]%Z Hlen eq_refl) as [ldf Hldf].
  fold a in Hldf.
  assert (exists p, point_dataframe a cm = Return p) as [p Hp].
  { unfold point_dataframe, color_vector. simpl marker_color_array.
    simpl hover_text. simpl marker_size_array. cbv iota.
    unfold_bind. rewrite sample_traverse_rgb255
      by (repeat constructor; set_solver).
    eexists. reflexivity. }
  eexists. unfold render_html_call. unfold_bind.
  rewrite Hrows, Hstep, Hldf, Hp. done.
Qed.


Lemma create_interactive_plot_label_dataframe_witness :
  let a := interactive_call three_points two_layers None None in
  exists c rows,
    render_html_call a = Return c /\
    label_rows a = Return rows /\
    length (RenderHtml.label_dataframe c) = length rows.
Proof.
  intros a. destruct two_layers_reach as (c & _ & _ & Hc & _ & _).
  fold a in Hc.
  destruct (create_interactive_plot_label_dataframe a c Hc)
    as (rows & _ & _ & Hrows & _ & Hlen & _).
  by exists c, rows.
Defined.


Lemma create_interactive_plot_layer_lengths_witness :
  length ["a"; "Unlabelled"; "Unlabelled"] = length three_points.
Proof.
  destruct two_layers_reach as (c & _ & _ & Hc & _ & _).
  apply (create_interactive_plot_layer_lengths
           (interactive_call three_points two_layers None None) c
           ["a"; "Unlabelled"; "Unlabelled"] eq_refl Hc).
  - unfold two_layers. simpl. by left.
  - exists "a". split; [by left|done].
Defined.

Lemma create_interactive_plot_given_color_map_errors_witness :
  let m : gmap string color :=
    <["a" := "#ff0000"]> (<["A" := "#00ff00"]> (<["unused" := "bogus"]> ∅)) in
  create_interactive_plot (interactive_call three_points two_layers (Some m) None)
  = Raise (Exn HelperFailure (Helper "to_rgb")).
Proof.
  intros m.
  destruct (two_layers_rows (Some m) None) as (rows & Hrows & _ & _).
  destruct (create_interactive_plot_given_color_map_errors
              (interactive_call three_points two_layers (Some m) None) m rows
              ltac:(discriminate) eq_refl Hrows) as [Hbad _].
  apply Hbad. exists "unused", "bogus". eexists. split; reflexivity.
Defined.

Definition repeated_layers : list (list string) :=
  [["a"; "Unlabelled"; "Unlabelled"]; ["a"; "a"; "Unlabelled"]].

Lemma create_interactive_plot_auto_color_map_last_row_witness :
  let a := interactive_call three_points repeated_layers None None in
  exists rows color_map text_palette,
    label_rows a = Return rows /\
    color_step a rows = Return (color_map, text_palette) /\
    color_map !! "a" = Some (0, 255, 0)%Z.
Proof.
  intros a.
  assert (exists rows, label_rows a = Return rows /\
            map LabelFrame.label rows = ["a"; "a"])
    as (rows & Hrows & Hnames).
  { eexists. split; reflexivity. }
  destruct rows as [|r1 [|r2 [|r3 rows]]]; try done.
  injection Hnames as Hn1 Hn2.
  assert (generate_palette a [r1; r2] = ["#ff0000"; "#00ff00"]) as Hpal
    by reflexivity.
  assert (exists cm tp, color_step a [r1; r2] = Return (cm, tp))
    as (cm & tp & Hstep).
  { unfold color_step. simpl label_color_map. cbv iota. cbv zeta. rewrite Hpal.
    unfold_bind. rewrite !sample_traverse_rgb255.
    - by eexists _, _.
    - repeat constructor; set_solver.
    - unfold text_variant. simpl. repeat constructor; set_solver. }
  destruct (create_interactive_plot_auto_color_map_last_row
              a [r1; r2] cm tp 1%nat r2 eq_refl Hstep eq_refl)
    as (color & v & Hcolor & Hv & Hcm).
  { intros j row' Hj Hrow'. destruct j as [|[|j]]; try lia. done. }
  rewrite Hpal in Hcolor. injection Hcolor as <-.
  rewrite (sample_rgb255_ok "#00ff00") in Hv by set_solver.
  injection Hv as <-. rewrite Hn2 in Hcm.
  by exists [r1; r2], cm, tp.
Defined.

Lemma dict_get_Some {V} (d : gmap string V) k v :
  d !! k = Some v -> dict_get d k = Return v.
Proof. intros Hk. unfold dict_get. by rewrite Hk. Qed.

Lemma two_layers_given_map_reach :
  let m : gmap string color :=
    <["a" := "#0000ff"]> (<["A" := "#ff0000"]> ∅) in
  exists c,
    render_html_call (interactive_call three_points two_layers (Some m) None)
    = Return c.
Proof.
  intros m.
  set (a := interactive_call three_points two_layers (Some m) None).
  destruct (two_layers_rows (Some m) None) as (rows & Hrows & Hnames & Hlen).
  fold a in Hrows.
  destruct rows as [|r1 [|r2 [|r3 rows]]]; try done.
  injection Hnames as Hn1 Hn2.
  assert (exists cm, color_step a [r1; r2]
                     = Return (cm, [(0, 0, 0); (0, 0, 0)]%Z)
                     /\ cm !! "a" = Some (0, 0, 255)%Z
                     /\ cm !! "A" = Some (255, 0, 0)%Z) as (cm & Hstep & Ha & HA).
  { assert (traverse (fun row => dict_get m (LabelFrame.label row)) [r1; r2]
            = Return ["#0000ff"; "#ff0000"]) as Hcolors.
    { simpl. unfold dict_get. rewrite Hn1, Hn2. reflexivity. }
    unfold color_step. simpl label_color_map. cbv iota. unfold_bind.
    rewrite (traverse_map _ (fun '(l, col) => (l, sample_rgb255 col))).
    - rewrite Hcolors.
      change (text_variant a ["#0000ff"; "#ff0000"])
        with ["#000000"; "#000000"].
      rewrite sample_traverse_rgb255 by (repeat constructor; set_solver).
      eexists. split_and!; reflexivity.
    - intros [l col] Hin. apply elem_of_map_to_list in Hin.
      unfold_bind. rewrite sample_rgb255_ok; [done|].
      unfold m in Hin.
      apply lookup_insert_Some in Hin as [[_ <-]|[_ Hin]]; [set_solver|].
      apply lookup_insert_Some in Hin as [[_ <-]|[_ Hin]]; [set_solver|].
      by rewrite lookup_empty in Hin. }
  destruct (sample_colored_label_rows (Some m) None [r1; r2]
              [(0, 0, 0); (0, 0, 0)]%Z eq_refl eq_refl) as [ldf Hldf].
  fold a in Hldf.
  assert (exists p, point_dataframe a cm = Return p) as [p Hp].
  { unfold point_dataframe, color_vector. simpl marker_color_array.
    simpl hover_text. simpl marker_size_array. simpl noise_color. cbv iota.
    unfold_bind. rewrite (sample_rgb255_ok "#999999") by set_solver.
    change (label_layers a) with two_layers. unfold two_layers.
    change (reverse [["a"; "Unlabelled"; "Unlabelled"];
                     ["A"; "A"; "Unlabelled"]])
      with [["A"; "A"; "Unlabelled"]; ["a"; "Unlabelled"; "Unlabelled"]].
    set (grey := (153, 153, 153)%Z).
    assert (paint_layer a cm ["A"; "A"; "Unlabelled"] [grey; grey; grey]
            = Return [(255, 0, 0)%Z; (255, 0, 0)%Z; grey]) as Hcoarse.
    { rewrite paint_layer_names.
      change (filter (fun l => l <> noise_label a)
                (np_unique ["A"; "A"; "Unlabelled"])) with ["A"].
      cbn [paint_names]. rewrite (dict_get_Some cm "A" _ HA). reflexivity. }
    assert (paint_layer a cm ["a"; "Unlabelled"; "Unlabelled"]
              [(255, 0, 0)%Z; (255, 0, 0)%Z; grey]
            = Return [(0, 0, 255)%Z; (255, 0, 0)%Z; grey]) as Hfine.
    { rewrite paint_layer_names.
      change (filter (fun l => l <> noise_label a)
                (np_unique ["a"; "Unlabelled"; "Unlabelled"])) with ["a"].
      cbn [paint_names]. rewrite (dict_get_Some cm "a" _ Ha). reflexivity. }
    change (replicate (length (data_map_coords a))
              (rgb_to_uint8 (sample_rgb255 "#999999")))
      with [grey; grey; grey].
    cbn [paint_layers]. unfold_bind. rewrite Hcoarse, Hfine.
    eexists. reflexivity. }
  eexists. unfold render_html_call. unfold_bind.
  rewrite Hrows, Hstep, Hldf, Hp. done.
Qed.

Lemma create_interactive_plot_given_map_marker_colors_witness :
  let m : gmap string color :=
    <["a" := "#0000ff"]> (<["A" := "#ff0000"]> ∅) in
  let a := interactive_call three_points two_layers (Some m) None in
  exists c,
    render_html_call a = Return c /\
    marker_color (RenderHtml.point_dataframe c) 1 = Some (255, 0, 0)%Z /\
    marker_color (RenderHtml.point_dataframe c) 2 = Some (153, 153, 153)%Z.
Proof.
  intros m a. destruct two_layers_given_map_reach as [c Hc].
  fold m in Hc. fold a in Hc.
  pose proof (create_interactive_plot_given_map_marker_colors
                a m c 1%nat eq_refl eq_refl Hc ltac:(simpl; lia)) as H1.
  pose proof (create_interactive_plot_given_map_marker_colors
                a m c 2%nat eq_refl eq_refl Hc ltac:(simpl; lia)) as H2.
  change (finest_label _ _ 1) with (Some "A") in H1.
  change (finest_label _ _ 2) with (@None string) in H2.
  cbv iota in H1, H2.
  destruct H1 as (col & v & Hcol & Hv & Hmark1).
  change (m !! "A") with (Some "#ff0000") in Hcol. injection Hcol as <-.
  rewrite (sample_rgb255_ok "#ff0000") in Hv by set_solver.
  injection Hv as <-.
  destruct H2 as (v & Hv & Hmark2).
  change (rgb255 "#999999" = Return v) in Hv.
  rewrite (sample_rgb255_ok "#999999") in Hv by set_solver.
  injection Hv as <-.
  by exists c.
Defined.

End InteractiveFurtherWitnesses.

Section InteractiveFrames.
Import CreateInteractivePlot.
Context `{PaletteHandling} `{Textwrap} `{Matplotlib} `{InteractiveRendering}.
Implicit Types (a : args).

(** The base colours of the rows of the label dataframe: the palette, or
    the colours a given map holds for the labels of the rows. *)
Definition row_base_colors a (rows : list LabelFrame.row) (base : list color)
  : Prop :=
  match label_color_map a with
  | None => base = generate_palette a rows
  | Some m =>
      Forall2 (fun row col => m !! LabelFrame.label row = Some col) rows base
  end.

Lemma color_step_text_palette a rows color_map text_palette :
  color_step a rows = Return (color_map, text_palette) ->
  exists base,
    row_base_colors a rows base /\
    traverse rgb255 (text_variant a base) = Return text_palette.
Proof.
  unfold color_step, row_base_colors. unfold_bind. cbv zeta.
  destruct (label_color_map a) as [m|].
  - destruct (traverse _ (map_to_list m)) as [e|entries]; [done|].
    destruct (traverse _ rows) as [e|colors] eqn:Hcolors; [done|].
    destruct (traverse rgb255 _) as [e|tp] eqn:Htp; [done|].
    intros [= <- <-]. exists colors. split; [|done].
    apply traverse_Return_inv in Hcolors.
    eapply Forall2_impl; [exact Hcolors|]. intros row col. unfold dict_get.
    destruct (m !! LabelFrame.label row); naive_solver.
  - destruct (traverse rgb255 (text_variant a _)) as [e|tp] eqn:Htp; [done|].
    destruct (traverse rgb255 (generate_palette a rows)) as [e|p]; [done|].
    intros [= <- <-]. by eexists.
Qed.

(** X14.  In a call of [create_interactive_plot] that reaches [render_html]
    with [color_label_text] or [color_cluster_boundaries] set, the colour of
    row [i] of the label dataframe is the conversion of entry [i] of a
    variant of the base colours of the rows: [deep_palette] of them on a
    light background, [pastel_palette] of them in darkmode. *)
Theorem create_interactive_plot_label_colors a c :
  render_html_call a = Return c ->
  color_label_text a || color_cluster_boundaries a = true ->
  exists rows base,
    label_rows a = Return rows /\
    row_base_colors a rows base /\
    forall i cr, RenderHtml.label_dataframe c !! i = Some cr ->
      exists color,
        (if darkmode a then pastel_palette base else deep_palette base) !! i
        = Some color /\
        rgb255 color
        = Return (LabelFrame.r cr, LabelFrame.g cr, LabelFrame.b cr).
Proof.
  intros Hc Hflags.
  apply render_html_call_Return_inv in Hc
    as (rows & cm & tp & ldf & points & Hrows & Hstep & Hldf & _ & ->).
  simpl.
  apply color_step_text_palette in Hstep as (base & Hbase & Htp).
  exists rows, base. split_and!; [done|done|].
  intros i cr Hcr.
  apply colored_label_rows_Return_inv in Hldf as [Hlen Hrow].
  destruct (lookup_lt_is_Some_2 rows i) as [row Hi].
  { apply lookup_lt_Some in Hcr. lia. }
  destruct (Hrow i row Hi) as (cr' & Hcr' & _ & _ & Hcol).
  assert (cr' = cr) as -> by congruence.
  rewrite Hflags in Hcol.
  apply traverse_Return_inv in Htp.
  destruct (Forall2_lookup_r _ _ _ _ _ Htp Hcol) as (color & Hcolor & Hrgb).
  exists color. split; [|done].
  unfold text_variant in Hcolor. by destruct (darkmode a).
Qed.

Lemma point_dataframe_columns a color_map points :
  point_dataframe a color_map = Return points ->
  let n := length (data_map_coords a) in
  PointFrame.x points = map fst (data_map_coords a) /\
  PointFrame.y points = map snd (data_map_coords a) /\
  PointFrame.hover_text points = hover_text a /\
  PointFrame.size points = marker_size_array a /\
  (forall h, hover_text a = Some h -> length h = n) /\
  (forall s, marker_size_array a = Some s -> length s = n) /\
  length (PointFrame.r points) = n /\
  length (PointFrame.g points) = n /\
  length (PointFrame.b points) = n /\
  PointFrame.a points = replicate n 180%Z.
Proof.
  unfold point_dataframe. unfold_bind. cbv zeta.
  destruct (match hover_text a with Some _ => _ | None => _ end)
    as [e|u1] eqn:Hh; [done|].
  destruct (match marker_size_array a with Some _ => _ | None => _ end)
    as [e|u2] eqn:Hs; [done|].
  destruct (color_vector a color_map) as [e|cv]; [done|].
  destruct (columns cv) as [e|[[rs gs] bs]] eqn:Hcols; [done|].
  destruct (check_column_length _ rs) as [e|u] eqn:Hlen; [done|].
  intros [= <-]. simpl.
  apply columns_Return_inv in Hcols as (_ & -> & -> & ->).
  apply check_column_length_Return_inv in Hlen. rewrite length_map in Hlen.
  split_and!; try done.
  - intros h Hhover. rewrite Hhover in Hh.
    by apply check_column_length_Return_inv in Hh.
  - intros s Hsize. rewrite Hsize in Hs.
    by apply check_column_length_Return_inv in Hs.
  - by rewrite !length_map.
  - by rewrite !length_map.
  - by rewrite !length_map.
Qed.


End InteractiveFrames.

Section InteractiveFramesWitnesses.
Import Sample.
Import CreateInteractivePlot.

Lemma create_interactive_plot_label_colors_witness :
  let a := interactive_call three_points two_layers None None in
  exists c,
    render_html_call a = Return c /\
    forall cr, RenderHtml.label_dataframe c !! 0%nat = Some cr ->
      (LabelFrame.r cr, LabelFrame.g cr, LabelFrame.b cr) = (0, 0, 0)%Z.
Proof.
  intros a. destruct two_layers_reach as (c & _ & _ & Hc & _ & _).
  fold a in Hc. exists c. split; [exact Hc|].
  intros cr Hcr.
  destruct (create_interactive_plot_label_colors a c Hc eq_refl)
    as (rows & base & _ & _ & Hrow).
  destruct (Hrow 0%nat cr Hcr) as (color & Hcolor & Hrgb).
  change (map (fun _ => "#000000") base !! 0%nat = Some color) in Hcolor.
  rewrite list_lookup_fmap in Hcolor.
  destruct (base !! 0%nat); [|done]. injection Hcolor as <-.
  rewrite (sample_rgb255_ok "#000000") in Hrgb by set_solver.
  by injection Hrgb as <- <- <-.
Defined.


End InteractiveFramesWitnesses.
